(** * Chat backend: identity, room membership and message retrieval

    A shallow embedding of the Express/Mongoose handlers of the chat
    backend.  The repository holds two revisions of the server:

    - [src/server.js], the serverless revision (module [Server]), whose
      membership routes are single [findOneAndUpdate] calls with the
      update operators [$addToSet] and [$pull], and which serves the
      message log over HTTP;
    - [src/unnamed/part_000], the earlier revision (module [Part000]), whose
      membership routes read a room document, edit it in memory and
      [save] it, and which has the [DELETE /deleteRoom/:name] route.

    The three Mongoose collections are lists of documents in insertion
    order.  A handler is a function from the request fields and the
    database to a response and the database after the request.  The
    handlers are modelled on the path on which the awaited driver calls
    resolve; a rejected driver call reaches the [catch] block only where the
    model can produce one, namely the unique index on [create].  Of the
    fields that Mongoose adds to every document, the [_id] of a user is
    modelled, because [GET /users] sends it; the [_id] of rooms and
    messages and the version key [__v] are not. *)

From Stdlib Require Import ZArith Ascii.
From stdpp Require Import base decidable option list strings sorting pretty.

Open Scope string_scope.
Open Scope list_scope.

(** ** Collections *)

(** The driver calls the handlers use, over a collection kept as a list
    and a filter given as a decidable predicate on documents. *)
Module Mongo.
Section collection.
Context {A : Type} (P : A → Prop) `{!∀ x, Decision (P x)}.

(** [Model.findOne(filter)]: the first matching document, or [null]. *)
Fixpoint findOne (c : list A) : option A :=
  match c with
  | [] => None
  | x :: c' => if decide (P x) then Some x else findOne c'
  end.

(** [Model.find(filter)]: every matching document, in collection order. *)
Definition find (c : list A) : list A := filter P c.

(** [Model.findOneAndUpdate(filter, update)] and [doc.save()]: the first
    matching document is replaced by its update; no match, no change. *)
Fixpoint updateOne (f : A → A) (c : list A) : list A :=
  match c with
  | [] => []
  | x :: c' => if decide (P x) then f x :: c' else x :: updateOne f c'
  end.

(** [Model.deleteOne(filter)]: the first matching document is removed. *)
Fixpoint deleteOne (c : list A) : list A :=
  match c with
  | [] => []
  | x :: c' => if decide (P x) then c' else x :: deleteOne c'
  end.

(** [Model.deleteMany(filter)]: every matching document is removed. *)
Definition deleteMany (c : list A) : list A := filter (λ x, ¬ P x) c.
End collection.

(** The error of an insertion that violates a unique index. *)
Definition E11000 : string := "E11000 duplicate key error".
End Mongo.

(** ** Models *)

Module User.
Record t := mk {
  _id : string;        (* the ObjectId Mongoose gives the document *)
  name : string;
  email : string;      (* unique: true *)
  password : string;
  avatar : string
}.

#[global] Instance eq_dec : EqDecision t.
Proof. solve_decision. Defined.

(** What [User.find({}, "name email avatar")] returns of a document: the
    three selected fields and, as with every inclusive projection, the
    [_id]. *)
Record view := mkView {
  v_id : string;
  v_name : string;
  v_email : string;
  v_avatar : string
}.

#[global] Instance view_eq_dec : EqDecision view.
Proof. solve_decision. Defined.

Definition select (u : t) : view :=
  {| v_id := _id u; v_name := name u; v_email := email u;
     v_avatar := avatar u |}.

Definition byEmail (e : string) (u : t) : Prop := email u = e.

#[global] Instance byEmail_dec e u : Decision (byEmail e u).
Proof. unfold byEmail. apply _. Defined.

(** [User.create(doc)] under the unique index on [email]. *)
Definition create (u : t) (c : list t) : string + list t :=
  if decide (email u ∈ email <$> c) then inl Mongo.E11000
  else inr (c ++ [u]).

(** The unique index as a predicate on the collection. *)
Definition unique (c : list t) : Prop := NoDup (email <$> c).
End User.

Module Room.
Record t := mk {
  name : string;       (* unique: true *)
  creator : string;
  members : list string;
  joinRequests : list string
}.

#[global] Instance eq_dec : EqDecision t.
Proof. solve_decision. Defined.

Definition byName (n : string) (r : t) : Prop := name r = n.

#[global] Instance byName_dec n r : Decision (byName n r).
Proof. unfold byName. apply _. Defined.

(** The two array fields an update can name. *)
Inductive field := Members | JoinRequests.

Definition get (f : field) (r : t) : list string :=
  match f with Members => members r | JoinRequests => joinRequests r end.

Definition set (f : field) (l : list string) (r : t) : t :=
  match f with
  | Members => mk (name r) (creator r) l (joinRequests r)
  | JoinRequests => mk (name r) (creator r) (members r) l
  end.

(** [arr.includes(x)] and [arr.push(x)]. *)
Definition includes (l : list string) (x : string) : bool :=
  bool_decide (x ∈ l).

Definition push (l : list string) (x : string) : list string := l ++ [x].

(** The update operators: [$addToSet] appends a value the array lacks,
    [$pull] removes every occurrence of a value. *)
Inductive op :=
| addToSet (f : field) (v : string)
| pull (f : field) (v : string).

Definition apply_op (r : t) (o : op) : t :=
  match o with
  | addToSet f v =>
      if includes (get f r) v then r else set f (push (get f r) v) r
  | pull f v => set f (filter (λ x, x ≠ v) (get f r)) r
  end.

Definition apply_update (u : list op) (r : t) : t := foldl apply_op r u.

(** [Room.create(doc)] under the unique index on [name]. *)
Definition create (r : t) (c : list t) : string + list t :=
  if decide (name r ∈ name <$> c) then inl Mongo.E11000
  else inr (c ++ [r]).

Definition unique (c : list t) : Prop := NoDup (name <$> c).

(** The invariant of the data model: nobody is both a member and
    pending. *)
Definition consistent (r : t) : Prop :=
  ∀ e, e ∈ members r → e ∈ joinRequests r → False.

#[global] Instance consistent_dec r : Decision (consistent r).
Proof.
  refine (cast_if (decide (Forall (λ e, e ∉ joinRequests r) (members r))));
    unfold consistent; rewrite Forall_forall in *; naive_solver.
Defined.
End Room.

Module Message.
Record t := mk {
  senderEmail : string;
  senderName : string;
  receiver : string;
  text : string;
  file : string;
  isRoom : bool;
  time : Z             (* Date, in milliseconds; default: Date.now *)
}.

#[global] Instance eq_dec : EqDecision t.
Proof. solve_decision. Defined.

(** The filters the handlers build: equality on a field, a document of
    two conditions, and [$or]. *)
Inductive query :=
| SenderEmail (v : string)
| Receiver (v : string)
| IsRoom (b : bool)
| And (q1 q2 : query)
| Or (q1 q2 : query).

Fixpoint matches (q : query) (m : t) : bool :=
  match q with
  | SenderEmail v => bool_decide (senderEmail m = v)
  | Receiver v => bool_decide (receiver m = v)
  | IsRoom b => bool_decide (isRoom m = b)
  | And q1 q2 => matches q1 m && matches q2 m
  | Or q1 q2 => matches q1 m || matches q2 m
  end.

(** [.sort({ time: 1 })]: ascending by [time].  The database leaves the
    order of documents with equal times open; this sort is one such
    order, and the theorems below speak of the order by [time] only. *)
Definition earlier (m1 m2 : t) : Prop := (time m1 ≤ time m2)%Z.

#[global] Instance earlier_dec m1 m2 : Decision (earlier m1 m2).
Proof. unfold earlier. apply _. Defined.

Definition sort (l : list t) : list t := merge_sort earlier l.

(** [Message.find(query)]. *)
Definition find (q : query) (c : list t) : list t :=
  Mongo.find (λ m, matches q m) c.

(** [Message.deleteMany(query)]. *)
Definition deleteMany (q : query) (c : list t) : list t :=
  Mongo.deleteMany (λ m, matches q m) c.
End Message.

(** ** Database and responses *)

Record db := mkDb {
  users : list User.t;
  rooms : list Room.t;
  messages : list Message.t
}.

Definition empty_db : db := mkDb [] [] [].

(** The JSON bodies the routes send. *)
Inductive body :=
| Msg (msg : string)
| MsgDetails (msg details : string)
| Session (token email name avatar : string)
| Users (us : list User.view)
| Rooms (rs : list Room.t)
| Messages (ms : list Message.t)
| OneMessage (m : Message.t).

Record response := mkResponse { status : nat; json : body }.

(** [res.json(b)] and [res.status(n).json(b)]. *)
Definition res_json (b : body) : response := mkResponse 200 b.
Definition res_status (n : nat) (b : body) : response := mkResponse n b.

(** [a || b] on strings: the empty string is falsy. *)
Definition js_or (a b : string) : string :=
  match a with "" => b | _ => a end.

Definition set_users (us : list User.t) (d : db) : db :=
  mkDb us (rooms d) (messages d).
Definition set_rooms (rs : list Room.t) (d : db) : db :=
  mkDb (users d) rs (messages d).
Definition set_messages (ms : list Message.t) (d : db) : db :=
  mkDb (users d) (rooms d) ms.

(** ** The handlers of [src/server.js] *)

Module Server.

Section auth.
(** What the authentication routes take from outside: [bcrypt.hash]
    (with its salt drawn inside), [bcrypt.compare], [jwt.sign] and the
    environment variable [JWT_SECRET]; and [ObjectId], the [_id] that
    Mongoose draws for a document it builds, given here as a function of
    the collection the document goes into (every insertion is into a
    longer collection, so any sequence of ids is such a function). *)
Variable bcrypt_hash : string → nat → string.
Variable ObjectId : list User.t → string.
Variable bcrypt_compare : string → string → bool.
Variable jwt_sign : string → string → string.
Variable JWT_SECRET : option string.

(** [process.env.JWT_SECRET || "secret"] *)
Definition secret : string :=
  match JWT_SECRET with
  | Some s => js_or s "secret"
  | None => "secret"
  end.

(** [POST /register] *)
Definition register (name email password : string) (d : db)
  : response * db :=
  match Mongo.findOne (User.byEmail email) (users d) with
  | Some _ => (res_status 400 (Msg "User already exists"), d)
  | None =>
      let hash := bcrypt_hash password 10 in
      match
        User.create (User.mk (ObjectId (users d)) name email hash "")
          (users d)
      with
      | inl err => (res_status 500 (MsgDetails "Register error" err), d)
      | inr us => (res_json (Msg "Registered successfully"), set_users us d)
      end
  end.

(** [POST /login] *)
Definition login (email password : string) (d : db) : response * db :=
  match Mongo.findOne (User.byEmail email) (users d) with
  | None => (res_status 400 (Msg "User not found"), d)
  | Some user =>
      if negb (bcrypt_compare password (User.password user))
      then (res_status 400 (Msg "Wrong password"), d)
      else
        let token := jwt_sign email secret in
        (res_json (Session token (User.email user) (User.name user)
                     (js_or (User.avatar user) "")), d)
  end.
End auth.

(** [GET /users] *)
Definition getUsers (d : db) : response * db :=
  (res_json (Users (User.select <$> Mongo.find (λ _, True) (users d))), d).

(** [GET /rooms] *)
Definition getRooms (d : db) : response * db :=
  (res_json (Rooms (Mongo.find (λ _, True) (rooms d))), d).

(** The [query] that [GET /messages/:type/:id] builds; [me] is the query
    parameter of that name. *)
Definition messagesQuery (type id me : string) : Message.query :=
  if bool_decide (type = "room")
  then Message.And (Message.Receiver id) (Message.IsRoom true)
  else
    Message.And (Message.IsRoom false)
      (Message.Or
         (Message.And (Message.SenderEmail me) (Message.Receiver id))
         (Message.And (Message.SenderEmail id) (Message.Receiver me))).

(** [GET /messages/:type/:id?me=] *)
Definition getMessages (type id me : string) (d : db) : response * db :=
  let query := messagesQuery type id me in
  let messages := Message.sort (Message.find query (messages d)) in
  (res_json (Messages messages), d).

(** [POST /messages]; [now] is the clock the [time] default reads. *)
Definition postMessages (now : Z)
    (senderEmail senderName receiver text file : string) (isRoom : bool)
    (d : db) : response * db :=
  let newMessage :=
    Message.mk senderEmail senderName receiver text file isRoom now in
  (res_json (OneMessage newMessage),
   set_messages (messages d ++ [newMessage]) d).

(** [POST /createRoom] *)
Definition createRoom (name creator : string) (d : db) : response * db :=
  match Mongo.findOne (Room.byName name) (rooms d) with
  | Some _ => (res_status 400 (Msg "Room exists"), d)
  | None =>
      match Room.create (Room.mk name creator [creator] []) (rooms d) with
      | inl _ => (res_status 500 (Msg "Room creation error"), d)
      | inr rs => (res_json (Msg "Room created"), set_rooms rs d)
      end
  end.

(** [POST /requestJoinRoom] *)
Definition requestJoinRoom (roomName email : string) (d : db)
  : response * db :=
  let rs :=
    Mongo.updateOne (Room.byName roomName)
      (Room.apply_update [Room.addToSet Room.JoinRequests email])
      (rooms d) in
  (res_json (Msg "Request sent"), set_rooms rs d).

(** [POST /approveJoin] *)
Definition approveJoin (roomName email : string) (d : db) : response * db :=
  let rs :=
    Mongo.updateOne (Room.byName roomName)
      (Room.apply_update
         [Room.addToSet Room.Members email;
          Room.pull Room.JoinRequests email])
      (rooms d) in
  (res_json (Msg "User approved"), set_rooms rs d).

End Server.

(** ** The handlers of [src/unnamed/part_000]

    [/register], [/login], [/users], [/rooms] and [/createRoom] have the
    text of [src/server.js] without the [connectDB] call; the routes below
    are the ones that differ or exist in this revision only. *)

Module Part000.

Definition createRoom := Server.createRoom.
Definition getRooms := Server.getRooms.

(** [POST /requestJoinRoom] *)
Definition requestJoinRoom (roomName email : string) (d : db)
  : response * db :=
  match Mongo.findOne (Room.byName roomName) (rooms d) with
  | None => (res_status 404 (Msg "Room not found"), d)
  | Some room =>
      if negb (Room.includes (Room.joinRequests room) email)
         && negb (Room.includes (Room.members room) email)
      then
        let room :=
          Room.set Room.JoinRequests
            (Room.push (Room.joinRequests room) email) room in
        (res_json (Msg "Request sent"),
         set_rooms
           (Mongo.updateOne (Room.byName roomName) (λ _, room) (rooms d)) d)
      else (res_json (Msg "Request sent"), d)
  end.

(** [POST /approveJoin] *)
Definition approveJoin (roomName email : string) (d : db) : response * db :=
  match Mongo.findOne (Room.byName roomName) (rooms d) with
  | None => (res_status 404 (Msg "Room not found"), d)
  | Some room =>
      let room :=
        Room.set Room.JoinRequests
          (filter (λ e, e ≠ email) (Room.joinRequests room)) room in
      let room :=
        if negb (Room.includes (Room.members room) email)
        then Room.set Room.Members (Room.push (Room.members room) email) room
        else room in
      (res_json (Msg "Approved"),
       set_rooms
         (Mongo.updateOne (Room.byName roomName) (λ _, room) (rooms d)) d)
  end.

(** [DELETE /deleteRoom/:name] *)
Definition deleteRoom (name : string) (d : db) : response * db :=
  let d := set_rooms (Mongo.deleteOne (Room.byName name) (rooms d)) d in
  let d :=
    set_messages
      (Message.deleteMany
         (Message.And (Message.Receiver name) (Message.IsRoom true))
         (messages d)) d in
  (res_json (Msg "Room deleted"), d).

End Part000.

(** ** Vocabulary of the statements *)

(** The room of a given name and the identity of a given email, as the
    handlers look them up. *)
Definition room_named (n : string) (d : db) : option Room.t :=
  Mongo.findOne (Room.byName n) (rooms d).

Definition identity_of (e : string) (d : db) : option User.t :=
  Mongo.findOne (User.byEmail e) (users d).

(** The identity records kept for an email. *)
Definition records_of (e : string) (d : db) : list User.t :=
  filter (User.byEmail e) (users d).

(** The token a response carries, if any. *)
Definition token_of (r : response) : option string :=
  match json r with
  | Session token _ _ _ => Some token
  | _ => None
  end.

(** The membership updates as functions on one room; [apply_approve],
    [apply_request], [Part000_approveJoin_unfold] and
    [Part000_requestJoinRoom_rooms] below show that the handlers compute
    them.

    What the two revisions of [/approveJoin] do to the room they find. *)
Definition approved (e : string) (r : Room.t) : Room.t :=
  Room.mk (Room.name r) (Room.creator r)
    (if decide (e ∈ Room.members r) then Room.members r
     else Room.members r ++ [e])
    (filter (λ x, x ≠ e) (Room.joinRequests r)).

(** What [/requestJoinRoom] of [src/server.js] does to the room. *)
Definition requested (e : string) (r : Room.t) : Room.t :=
  Room.mk (Room.name r) (Room.creator r) (Room.members r)
    (if decide (e ∈ Room.joinRequests r) then Room.joinRequests r
     else Room.joinRequests r ++ [e]).

(** What [/requestJoinRoom] of [src/unnamed/part_000] does to the room. *)
Definition requested_guarded (e : string) (r : Room.t) : Room.t :=
  if decide (e ∈ Room.members r) then r else requested e r.

(** The outcome of a request followed by its approval: the email is a
    member, is not pending, and the room is consistent. *)
Definition joined (e n : string) (d : db) : Prop :=
  ∃ room, room_named n d = Some room
    ∧ e ∈ Room.members room
    ∧ (e ∉ Room.joinRequests room)
    ∧ Room.consistent room.

(** The invariants of the room store: names are unique (the unique index)
    and every room is consistent (what the membership routes are to
    keep). *)
Definition rooms_ok (d : db) : Prop :=
  Room.unique (rooms d) ∧ Forall Room.consistent (rooms d).

(** The two kinds of conversation, as predicates on a message. *)
Definition room_message (id : string) (m : Message.t) : Prop :=
  Message.receiver m = id ∧ Message.isRoom m = true.

Definition private_message (me id : string) (m : Message.t) : Prop :=
  Message.isRoom m = false
  ∧ ((Message.senderEmail m = me ∧ Message.receiver m = id)
     ∨ (Message.senderEmail m = id ∧ Message.receiver m = me)).

#[global] Instance room_message_dec id m : Decision (room_message id m).
Proof. unfold room_message. apply _. Defined.

#[global] Instance private_message_dec me id m :
  Decision (private_message me id m).
Proof. unfold private_message. apply _. Defined.

(** Two identity records with the same name, email and avatar. *)
Definition same_public (u v : User.t) : Prop :=
  User.name u = User.name v
  ∧ User.email u = User.email v
  ∧ User.avatar u = User.avatar v.

(** Two identity records that agree on everything but the password
    hash. *)
Definition same_but_password (u v : User.t) : Prop :=
  User._id u = User._id v ∧ same_public u v.

(** ** Sequences of membership requests *)

(** The membership routes of [src/unnamed/part_000] as one dispatcher, and
    the databases a sequence of requests leads to. *)
Module Part000Run.
Inductive call :=
| CreateRoom (name creator : string)
| RequestJoinRoom (roomName email : string)
| ApproveJoin (roomName email : string)
| DeleteRoom (name : string).

Definition handle (c : call) (d : db) : response * db :=
  match c with
  | CreateRoom name creator => Part000.createRoom name creator d
  | RequestJoinRoom roomName email => Part000.requestJoinRoom roomName email d
  | ApproveJoin roomName email => Part000.approveJoin roomName email d
  | DeleteRoom name => Part000.deleteRoom name d
  end.

Definition run (cs : list call) (d : db) : db :=
  foldl (λ d c, snd (handle c d)) d cs.
End Part000Run.

(** The same for [src/server.js], which has no [/deleteRoom] route. *)
Module ServerRun.
Inductive call :=
| CreateRoom (name creator : string)
| RequestJoinRoom (roomName email : string)
| ApproveJoin (roomName email : string).

Definition handle (c : call) (d : db) : response * db :=
  match c with
  | CreateRoom name creator => Server.createRoom name creator d
  | RequestJoinRoom roomName email => Server.requestJoinRoom roomName email d
  | ApproveJoin roomName email => Server.approveJoin roomName email d
  end.

Definition run (cs : list call) (d : db) : db :=
  foldl (λ d c, snd (handle c d)) d cs.
End ServerRun.

(** ** Sample data *)

Module Sample.
(** Stand-ins for the hashing and signing libraries. *)
Definition hash (password : string) (rounds : nat) : string :=
  ("$2a$" ++ password)%string.
Definition compare (password hashed : string) : bool :=
  bool_decide (hashed = ("$2a$" ++ password)%string).
Definition sign (email secret : string) : string :=
  (email ++ "." ++ secret)%string.

Definition ObjectId (c : list User.t) : string :=
  ("65f0c0ffee00000000000" ++ pretty (100 + N.of_nat (length c))%N)%string.

Definition alice : User.t :=
  User.mk "65f0c0ffee00000000000100" "Alice" "alice@example.com"
    "$2a$wonderland" "".
Definition alice' : User.t :=
  User.mk "65f0c0ffee00000000000100" "Alice" "alice@example.com"
    "$2a$lookingglass" "".
Definition alice_again : User.t :=
  User.mk "65f0c0ffee00000000000777" "Alice" "alice@example.com"
    "$2a$wonderland" "".
Definition bob : User.t :=
  User.mk "65f0c0ffee00000000000101" "Bob" "bob@example.com" "$2a$builder"
    "/uploads/bob.png".

Definition general : Room.t :=
  Room.mk "general" "alice@example.com" ["alice@example.com"] [].
Definition random : Room.t :=
  Room.mk "random" "bob@example.com" ["bob@example.com"]
    ["alice@example.com"].

Definition m1 : Message.t :=
  Message.mk "bob@example.com" "Bob" "general" "hi" "" true 30.
Definition m2 : Message.t :=
  Message.mk "alice@example.com" "Alice" "bob@example.com" "hello" ""
    false 20.
Definition m3 : Message.t :=
  Message.mk "bob@example.com" "Bob" "alice@example.com" "hey" "" false 10.
Definition m4 : Message.t :=
  Message.mk "alice@example.com" "Alice" "random" "yo" "" true 5.

Definition d0 : db :=
  mkDb [alice; bob] [general; random] [m1; m2; m3; m4].
End Sample.

(** ** File upload *)

Module Upload.
(** The [filename] callback of the multer storage:
    [Date.now() + "-" + file.originalname], with [now] the clock in
    milliseconds and the number printed in decimal. *)
Definition filename (now : N) (originalname : string) : string :=
  pretty now +:+ "-" +:+ originalname.

(** [POST /upload]: the [path] field of the response. *)
Definition upload (now : N) (originalname : string) : string :=
  "/uploads/" +:+ filename now originalname.
End Upload.

(** ** The routes of [src/server.js] as one application *)

Module ServerApp.
Inductive request :=
| Register (name email password : string)
| Login (email password : string)
| GetUsers
| GetRooms
| GetMessages (type id me : string)
| PostMessages (senderEmail senderName receiver text file : string)
    (isRoom : bool)
| CreateRoom (name creator : string)
| RequestJoinRoom (roomName email : string)
| ApproveJoin (roomName email : string).

Section app.
Variable bcrypt_hash : string → nat → string.
Variable ObjectId : list User.t → string.
Variable bcrypt_compare : string → string → bool.
Variable jwt_sign : string → string → string.
Variable JWT_SECRET : option string.

(** One request, served at clock time [now]. *)
Definition handle (now : Z) (r : request) (d : db) : response * db :=
  match r with
  | Register name email password =>
      Server.register bcrypt_hash ObjectId name email password d
  | Login email password =>
      Server.login bcrypt_compare jwt_sign JWT_SECRET email password d
  | GetUsers => Server.getUsers d
  | GetRooms => Server.getRooms d
  | GetMessages type id me => Server.getMessages type id me d
  | PostMessages senderEmail senderName receiver text file isRoom =>
      Server.postMessages now senderEmail senderName receiver text file
        isRoom d
  | CreateRoom name creator => Server.createRoom name creator d
  | RequestJoinRoom roomName email => Server.requestJoinRoom roomName email d
  | ApproveJoin roomName email => Server.approveJoin roomName email d
  end.

(** A sequence of requests, each with the time it is served at. *)
Definition run (rs : list (Z * request)) (d : db) : db :=
  foldl (λ d r, snd (handle r.1 r.2 d)) d rs.
End app.
End ServerApp.

(** ** Further vocabulary *)

(** A room whose two lists hold no email twice and whose creator is a
    member. *)
Definition room_tidy (r : Room.t) : Prop :=
  NoDup (Room.members r)
  ∧ NoDup (Room.joinRequests r)
  ∧ Room.creator r ∈ Room.members r.


(** What a request that names another room leaves as it was: the room
    under the name [n], the users and the messages. *)
Definition same_elsewhere (n : string) (d d' : db) : Prop :=
  room_named n d' = room_named n d
  ∧ users d' = users d
  ∧ messages d' = messages d.



(** The messages a fetch sends. *)
Definition fetched (r : response) : list Message.t :=
  match json r with
  | Messages ms => ms
  | _ => []
  end.

(** * Properties *)

(** ** The driver calls *)

Section collection_facts.
Context {A : Type} (P : A → Prop) `{!∀ x, Decision (P x)}.

Lemma findOne_Some c x : Mongo.findOne P c = Some x → x ∈ c ∧ P x.
Proof.
  induction c as [|y c IH]; simpl; [done|].
  case_decide.
  - intros [= ->]. split; [left|done].
  - intros Hc. destruct (IH Hc) as [Hin HP]. split; [by right|done].
Qed.

Lemma findOne_None c : Mongo.findOne P c = None ↔ Forall (λ x, ¬ P x) c.
Proof.
  induction c as [|y c IH]; simpl.
  - split; [constructor|done].
  - case_decide.
    + split; [done|]. intros Hall. by apply Forall_cons in Hall as [? _].
    + rewrite IH, Forall_cons. tauto.
Qed.


(** An update that keeps the key is read back by the same filter. *)
Lemma findOne_updateOne f c :
  (∀ x, P x → P (f x)) →
  Mongo.findOne P (Mongo.updateOne P f c) = f <$> Mongo.findOne P c.
Proof.
  intros Hf. induction c as [|y c IH]; simpl; [done|].
  case_decide as Hy; simpl.
  - by rewrite decide_True by auto.
  - by rewrite decide_False by done.
Qed.

Lemma updateOne_None f c :
  Mongo.findOne P c = None → Mongo.updateOne P f c = c.
Proof.
  induction c as [|y c IH]; simpl; [done|].
  case_decide; [done|]. intros ?. f_equal. auto.
Qed.

Lemma updateOne_ext f g c :
  (∀ x, Mongo.findOne P c = Some x → f x = g x) →
  Mongo.updateOne P f c = Mongo.updateOne P g c.
Proof.
  induction c as [|y c IH]; simpl; [done|].
  case_decide; intros Hfg; [by rewrite Hfg|]. f_equal. auto.
Qed.

Lemma updateOne_twice f g c :
  (∀ x, P x → P (f x)) →
  Mongo.updateOne P g (Mongo.updateOne P f c)
  = Mongo.updateOne P (g ∘ f) c.
Proof.
  intros Hf. induction c as [|y c IH]; simpl; [done|].
  case_decide as Hy; simpl.
  - by rewrite decide_True by auto.
  - rewrite decide_False by done. by f_equal.
Qed.


Lemma elem_of_deleteOne c y : y ∈ Mongo.deleteOne P c → y ∈ c.
Proof.
  induction c as [|z c IH]; simpl; [done|].
  case_decide; rewrite !elem_of_cons; tauto.
Qed.

Lemma deleteOne_sublist c : Mongo.deleteOne P c `sublist_of` c.
Proof.
  induction c as [|z c IH]; simpl; [done|].
  case_decide; [by apply sublist_cons|by apply sublist_skip].
Qed.
End collection_facts.

(** Keys: an update that keeps the key keeps the list of keys. *)
Lemma updateOne_names n f c :
  (∀ r, Room.name (f r) = Room.name r) →
  Room.name <$> Mongo.updateOne (Room.byName n) f c = Room.name <$> c.
Proof.
  intros Hf. induction c as [|r c IH]; simpl; [done|].
  case_decide; csimpl; [by rewrite Hf|by rewrite IH].
Qed.

Lemma filter_Forall_id {A} (P : A → Prop) `{!∀ x, Decision (P x)} l :
  Forall P l → filter P l = l.
Proof.
  induction 1 as [|x l HP _ IH]; [done|].
  by rewrite filter_cons_True, IH.
Qed.

(** Under the unique index, [deleteOne] by name leaves no room of that
    name and keeps the others as they were. *)
Lemma deleteOne_unique n c :
  Room.unique c →
  Mongo.deleteOne (Room.byName n) c = filter (λ r, Room.name r ≠ n) c.
Proof.
  unfold Room.unique, Room.byName.
  induction c as [|r c IH]; simpl; [done|].
  intros [Hr Hc]%NoDup_cons. case_decide as Hn.
  - rewrite filter_cons_False by naive_solver.
    symmetry. apply filter_Forall_id, Forall_forall.
    intros r' Hin Hr'. apply Hr.
    replace (Room.name r) with (Room.name r') by congruence.
    by apply list_elem_of_fmap_2.
  - rewrite filter_cons_True by done. f_equal. auto.
Qed.

(** ** Membership updates on one room *)

Lemma apply_approve e r :
  Room.apply_update
    [Room.addToSet Room.Members e; Room.pull Room.JoinRequests e] r
  = approved e r.
Proof.
  destruct r as [n c ms js]. unfold Room.apply_update, approved; simpl.
  unfold Room.includes, Room.push; simpl.
  case_bool_decide; by rewrite ?decide_True, ?decide_False by done.
Qed.

Lemma apply_request e r :
  Room.apply_update [Room.addToSet Room.JoinRequests e] r = requested e r.
Proof.
  destruct r as [n c ms js]. unfold Room.apply_update, requested; simpl.
  unfold Room.includes, Room.push; simpl.
  case_bool_decide; by rewrite ?decide_True, ?decide_False by done.
Qed.

Lemma approved_name e r : Room.name (approved e r) = Room.name r.
Proof. done. Qed.

Lemma requested_name e r : Room.name (requested e r) = Room.name r.
Proof. done. Qed.

Lemma requested_guarded_name e r :
  Room.name (requested_guarded e r) = Room.name r.
Proof. unfold requested_guarded. by case_decide. Qed.

Lemma elem_of_approved_members e r x :
  x ∈ Room.members (approved e r) ↔ x = e ∨ x ∈ Room.members r.
Proof.
  unfold approved; simpl. case_decide.
  - split; [by right|]. by intros [->|?].
  - rewrite elem_of_app, list_elem_of_singleton. tauto.
Qed.

Lemma elem_of_approved_requests e r x :
  x ∈ Room.joinRequests (approved e r) ↔ x ≠ e ∧ x ∈ Room.joinRequests r.
Proof. unfold approved; simpl. by rewrite list_elem_of_filter. Qed.

Lemma elem_of_requested_requests e r x :
  x ∈ Room.joinRequests (requested e r) ↔ x = e ∨ x ∈ Room.joinRequests r.
Proof.
  unfold requested; simpl. case_decide.
  - split; [by right|]. by intros [->|?].
  - rewrite elem_of_app, list_elem_of_singleton. tauto.
Qed.

(** Approval is a move: afterwards the email is a member and is not
    pending, and no email is in both lists that was not in both before. *)
Lemma approved_member e r : e ∈ Room.members (approved e r).
Proof. apply elem_of_approved_members. by left. Qed.

Lemma approved_not_pending e r : e ∉ Room.joinRequests (approved e r).
Proof. rewrite elem_of_approved_requests. tauto. Qed.

Lemma approved_overlap e r x :
  x ∈ Room.members (approved e r) → x ∈ Room.joinRequests (approved e r) →
  x ∈ Room.members r ∧ x ∈ Room.joinRequests r.
Proof.
  rewrite elem_of_approved_members, elem_of_approved_requests. tauto.
Qed.

Lemma approved_consistent e r :
  Room.consistent r → Room.consistent (approved e r).
Proof.
  intros Hr x Hm Hj. destruct (approved_overlap e r x Hm Hj). by eapply Hr.
Qed.

Lemma approved_idemp e r : approved e (approved e r) = approved e r.
Proof.
  destruct r as [n c ms js]. unfold approved; simpl. f_equal.
  - destruct (decide (e ∈ ms)) as [Hin|Hin]; [by rewrite decide_True|].
    rewrite decide_True; [done|]. apply elem_of_app. right. by left.
  - apply filter_Forall_id, Forall_forall.
    intros x Hx. by apply list_elem_of_filter in Hx as [? _].
Qed.

(** A request that is approved right away leaves no trace in the pending
    list, whichever revision recorded the request. *)
Lemma approved_requested_consistent e r :
  Room.consistent r → Room.consistent (approved e (requested e r)).
Proof.
  intros Hr x Hm Hj.
  pose proof (approved_overlap _ _ _ Hm Hj) as [Hm' Hj'].
  apply elem_of_approved_requests in Hj as [Hne _].
  apply elem_of_requested_requests in Hj' as [?|Hj']; [done|].
  by eapply Hr.
Qed.

Lemma requested_guarded_consistent e r :
  Room.consistent r → Room.consistent (requested_guarded e r).
Proof.
  intros Hr. unfold requested_guarded. case_decide as Hin; [done|].
  intros x Hm [->|Hj]%elem_of_requested_requests; [done|]. by eapply Hr.
Qed.

(** ** The membership routes as updates of the room collection *)

Lemma set_rooms_id d : set_rooms (rooms d) d = d.
Proof. by destruct d. Qed.

Lemma updateOne_id {A} (P : A → Prop) `{!∀ x, Decision (P x)} f c :
  (∀ x, Mongo.findOne P c = Some x → f x = x) → Mongo.updateOne P f c = c.
Proof.
  induction c as [|y c IH]; simpl; [done|].
  case_decide; intros Hf; [by rewrite Hf|]. f_equal. auto.
Qed.

Lemma Server_approveJoin_rooms n e d :
  rooms (snd (Server.approveJoin n e d))
  = Mongo.updateOne (Room.byName n) (approved e) (rooms d).
Proof. simpl. apply updateOne_ext. intros. apply apply_approve. Qed.

Lemma Server_requestJoinRoom_rooms n e d :
  rooms (snd (Server.requestJoinRoom n e d))
  = Mongo.updateOne (Room.byName n) (requested e) (rooms d).
Proof. simpl. apply updateOne_ext. intros. apply apply_request. Qed.

(** The earlier revision of [/approveJoin] as one update: its in-memory
    edit of the room it found is the update of the later revision. *)
Lemma Part000_approveJoin_unfold n e d :
  Part000.approveJoin n e d
  = (match room_named n d with
     | Some _ => res_json (Msg "Approved")
     | None => res_status 404 (Msg "Room not found")
     end,
     set_rooms (Mongo.updateOne (Room.byName n) (approved e) (rooms d)) d).
Proof.
  unfold Part000.approveJoin, room_named.
  destruct (Mongo.findOne _ (rooms d)) as [room|] eqn:E; simpl.
  - do 2 f_equal. apply updateOne_ext. intros x Hx.
    assert (x = room) as -> by congruence.
    destruct room as [nm c ms js]. unfold approved, Room.includes; simpl.
    case_bool_decide; simpl; by rewrite ?decide_True, ?decide_False by done.
  - by rewrite updateOne_None, set_rooms_id.
Qed.

Lemma Part000_approveJoin_rooms n e d :
  rooms (snd (Part000.approveJoin n e d))
  = Mongo.updateOne (Room.byName n) (approved e) (rooms d).
Proof. by rewrite Part000_approveJoin_unfold. Qed.

Lemma Part000_requestJoinRoom_rooms n e d :
  rooms (snd (Part000.requestJoinRoom n e d))
  = Mongo.updateOne (Room.byName n) (requested_guarded e) (rooms d).
Proof.
  unfold Part000.requestJoinRoom.
  destruct (Mongo.findOne _ (rooms d)) as [room|] eqn:E; simpl.
  - unfold Room.includes. repeat case_bool_decide; simpl.
    all: first [apply updateOne_ext | symmetry; apply updateOne_id].
    all: intros x Hx; assert (x = room) as -> by congruence.
    all: unfold requested_guarded, requested; repeat case_decide; try done.
    all: by destruct room.
  - by rewrite updateOne_None.
Qed.

(** The room a membership update leaves under the name it was looked up
    by. *)
Lemma room_named_updateOne n f d rs :
  (∀ r, Room.name (f r) = Room.name r) →
  rooms d = Mongo.updateOne (Room.byName n) f rs →
  room_named n d = f <$> Mongo.findOne (Room.byName n) rs.
Proof.
  intros Hf Hd. unfold room_named. rewrite Hd.
  apply findOne_updateOne. unfold Room.byName. intros r <-. apply Hf.
Qed.

Lemma Forall_updateOne {A} (P : A → Prop) `{!∀ x, Decision (P x)}
    (Q : A → Prop) f c :
  (∀ x, Q x → Q (f x)) → Forall Q c → Forall Q (Mongo.updateOne P f c).
Proof.
  intros Hf. induction 1 as [|x c Hx Hc IH]; simpl; [constructor|].
  case_decide; constructor; auto.
Qed.

Lemma Forall_deleteOne {A} (P : A → Prop) `{!∀ x, Decision (P x)}
    (Q : A → Prop) c :
  Forall Q c → Forall Q (Mongo.deleteOne P c).
Proof.
  rewrite !Forall_forall. intros Hc x Hx. apply Hc. by eapply elem_of_deleteOne.
Qed.

(** ** The store invariants along a sequence of requests *)

Lemma createRoom_rooms_ok n c d :
  rooms_ok d → rooms_ok (snd (Server.createRoom n c d)).
Proof.
  intros [Hu Hc]. unfold Server.createRoom.
  destruct (Mongo.findOne _ _); [done|].
  unfold Room.create; simpl. case_decide as Hn; [done|].
  split; simpl.
  - unfold Room.unique in *. rewrite fmap_app. apply NoDup_app.
    split; [done|]. split; [|apply NoDup_singleton].
    intros x Hx ->%list_elem_of_singleton. done.
  - apply Forall_app. split; [done|]. apply Forall_singleton.
    intros e _ Hj. by apply elem_of_nil in Hj.
Qed.

Lemma Server_approveJoin_rooms_ok n e d :
  rooms_ok d → rooms_ok (snd (Server.approveJoin n e d)).
Proof.
  intros [Hu Hc]. unfold rooms_ok, Room.unique.
  rewrite Server_approveJoin_rooms, updateOne_names by done.
  split; [done|]. apply Forall_updateOne; [|done].
  intros r. apply approved_consistent.
Qed.

Lemma Part000_approveJoin_rooms_ok n e d :
  rooms_ok d → rooms_ok (snd (Part000.approveJoin n e d)).
Proof.
  intros [Hu Hc]. unfold rooms_ok, Room.unique.
  rewrite Part000_approveJoin_rooms, updateOne_names by done.
  split; [done|]. apply Forall_updateOne; [|done].
  intros r. apply approved_consistent.
Qed.

Lemma Part000_requestJoinRoom_rooms_ok n e d :
  rooms_ok d → rooms_ok (snd (Part000.requestJoinRoom n e d)).
Proof.
  intros [Hu Hc]. unfold rooms_ok, Room.unique.
  rewrite Part000_requestJoinRoom_rooms,
    updateOne_names by apply requested_guarded_name.
  split; [done|]. apply Forall_updateOne; [|done].
  intros r. apply requested_guarded_consistent.
Qed.

Lemma Part000_deleteRoom_rooms_ok n d :
  rooms_ok d → rooms_ok (snd (Part000.deleteRoom n d)).
Proof.
  intros [Hu Hc]. split; simpl.
  - unfold Room.unique in *.
    apply (sublist_NoDup _ (Room.name <$> rooms d)); [exact Hu|].
    apply fmap_sublist, deleteOne_sublist.
  - by apply Forall_deleteOne.
Qed.

(** Every database the membership routes of [src/unnamed/part_000] reach
    from a database that satisfies the invariants satisfies them. *)
Lemma Part000_run_rooms_ok cs d :
  rooms_ok d → rooms_ok (Part000Run.run cs d).
Proof.
  revert d. induction cs as [|c cs IH]; intros d Hd; simpl; [done|].
  apply IH. destruct c; simpl.
  - by apply createRoom_rooms_ok.
  - by apply Part000_requestJoinRoom_rooms_ok.
  - by apply Part000_approveJoin_rooms_ok.
  - by apply Part000_deleteRoom_rooms_ok.
Qed.

Lemma empty_rooms_ok : rooms_ok empty_db.
Proof. split; simpl; [apply NoDup_nil_2|constructor]. Qed.

(** In that revision no room a sequence of membership requests leaves has
    an email in both of its lists. *)
Lemma Part000_reachable_consistent cs room :
  room ∈ rooms (Part000Run.run cs empty_db) → Room.consistent room.
Proof.
  intros Hin.
  destruct (Part000_run_rooms_ok cs empty_db empty_rooms_ok) as [_ Hc].
  rewrite Forall_forall in Hc. auto.
Qed.

(** ** Membership claims *)

(** C1.  The claim that [members] and [joinRequests] stay disjoint under
    every membership operation fails for [/requestJoinRoom] of
    [src/server.js]: its [$addToSet] does not look at [members].  The
    creator of a fresh room, who is its first member, asks to join it and
    is recorded as pending as well, so the room has one email in both
    lists.  The guard is present in [src/unnamed/part_000]
    ([Part000_reachable_consistent]), and [/approveJoin] keeps the lists
    disjoint in both revisions ([Server_approveJoin_rooms_ok],
    [Part000_approveJoin_rooms_ok]). *)
Theorem Server_requestJoinRoom_member_becomes_pending :
  let alice := "alice@example.com" in
  let d := ServerRun.run [ServerRun.CreateRoom "general" alice] empty_db in
  let d' := snd (Server.requestJoinRoom "general" alice d) in
  room_named "general" d = Some (Room.mk "general" alice [alice] [])
  ∧ room_named "general" d' = Some (Room.mk "general" alice [alice] [alice])
  ∧ rooms_ok d
  ∧ ¬ rooms_ok d'.
Proof.
  intros alice d d'. split; [reflexivity|]. split; [reflexivity|]. split.
  - apply createRoom_rooms_ok, empty_rooms_ok.
  - intros [_ Hc]. apply Forall_inv in Hc. apply (Hc alice); by left.
Qed.

(** The defect in general: whenever a member who is not pending asks to
    join, the later revision leaves the room with that email in both
    lists. *)
Lemma Server_requestJoinRoom_member n e d room :
  room_named n d = Some room →
  e ∈ Room.members room →
  ∃ room', room_named n (snd (Server.requestJoinRoom n e d)) = Some room'
    ∧ e ∈ Room.members room' ∧ e ∈ Room.joinRequests room'.
Proof.
  intros Hroom Hm. exists (requested e room).
  rewrite (room_named_updateOne n (requested e) _ _ (requested_name e)
             (Server_requestJoinRoom_rooms _ _ _)).
  fold (room_named n d). rewrite Hroom.
  split; [done|]. split; [done|].
  apply elem_of_requested_requests. by left.
Qed.

(** The same request in the earlier revision changes nothing. *)
Lemma Part000_requestJoinRoom_member_unchanged :
  let alice := "alice@example.com" in
  let d := snd (Part000.createRoom "general" alice empty_db) in
  snd (Part000.requestJoinRoom "general" alice d) = d.
Proof. reflexivity. Qed.

(** A request followed by its approval, in either revision, leaves the
    room the result of the approval update on the requested room. *)
Lemma Server_request_then_approve_room n e d :
  room_named n (snd (Server.approveJoin n e
                       (snd (Server.requestJoinRoom n e d))))
  = approved e <$> (requested e <$> room_named n d).
Proof.
  rewrite (room_named_updateOne n (approved e) _ _ (approved_name e)
             (Server_approveJoin_rooms _ _ _)).
  fold (room_named n (snd (Server.requestJoinRoom n e d))).
  by rewrite (room_named_updateOne n (requested e) _ _ (requested_name e)
                (Server_requestJoinRoom_rooms _ _ _)).
Qed.

Lemma Part000_request_then_approve_room n e d :
  room_named n (snd (Part000.approveJoin n e
                       (snd (Part000.requestJoinRoom n e d))))
  = approved e <$> (requested_guarded e <$> room_named n d).
Proof.
  rewrite (room_named_updateOne n (approved e) _ _ (approved_name e)
             (Part000_approveJoin_rooms _ _ _)).
  fold (room_named n (snd (Part000.requestJoinRoom n e d))).
  by rewrite (room_named_updateOne n (requested_guarded e) _ _
                (requested_guarded_name e)
                (Part000_requestJoinRoom_rooms _ _ _)).
Qed.

(** On an existing room whose two lists are disjoint, a request to join
    followed by its approval leaves the email among the members and not
    among the pending requests, and the two lists disjoint; in both
    revisions of the routes. *)
Lemma request_then_approve n e d room :
  room_named n d = Some room →
  Room.consistent room →
  joined e n (snd (Server.approveJoin n e (snd (Server.requestJoinRoom n e d))))
  ∧ joined e n
      (snd (Part000.approveJoin n e (snd (Part000.requestJoinRoom n e d)))).
Proof.
  intros Hroom Hc. split.
  - exists (approved e (requested e room)).
    rewrite Server_request_then_approve_room, Hroom.
    split; [done|]. split; [apply approved_member|].
    split; [apply approved_not_pending|].
    by apply approved_requested_consistent.
  - exists (approved e (requested_guarded e room)).
    rewrite Part000_request_then_approve_room, Hroom.
    split; [done|]. split; [apply approved_member|].
    split; [apply approved_not_pending|].
    by apply approved_consistent, requested_guarded_consistent.
Qed.

Example request_then_approve_sample :
  let bob := "bob@example.com" in
  joined bob "general"
    (snd (Server.approveJoin "general" bob
            (snd (Server.requestJoinRoom "general" bob Sample.d0))))
  ∧ joined bob "general"
      (snd (Part000.approveJoin "general" bob
              (snd (Part000.requestJoinRoom "general" bob Sample.d0)))).
Proof.
  apply (request_then_approve "general" "bob@example.com" Sample.d0
           Sample.general).
  - reflexivity.
  - intros e _ Hj. by apply elem_of_nil in Hj.
Qed.

(** In [src/unnamed/part_000] the outcome holds on every existing room
    of every database a sequence of membership requests leads to. *)
Lemma Part000_request_then_approve_reachable cs n e room :
  let d := Part000Run.run cs empty_db in
  room_named n d = Some room →
  joined e n (snd (Part000.approveJoin n e (snd (Part000.requestJoinRoom n e d)))).
Proof.
  intros d Hroom.
  apply (request_then_approve n e d room Hroom).
  apply (Part000_reachable_consistent cs).
  by apply findOne_Some in Hroom as [Hin _].
Qed.

(** C3.  The claim that a request to join followed by its approval leaves
    the two lists of the room disjoint fails in [src/server.js] on a room
    its own routes produce: once the creator has been recorded as pending
    (the unguarded [$addToSet] of [/requestJoinRoom]), the request and the
    approval of a second user leave that user a member and not pending,
    as claimed, but the creator in both lists. *)
Theorem Server_request_then_approve_overlap :
  let alice := "alice@example.com" in
  let bob := "bob@example.com" in
  let d :=
    ServerRun.run
      [ServerRun.CreateRoom "general" alice;
       ServerRun.RequestJoinRoom "general" alice] empty_db in
  let d' :=
    snd (Server.approveJoin "general" bob
           (snd (Server.requestJoinRoom "general" bob d))) in
  room_named "general" d = Some (Room.mk "general" alice [alice] [alice])
  ∧ room_named "general" d'
    = Some (Room.mk "general" alice [alice; bob] [alice])
  ∧ ¬ joined bob "general" d'.
Proof.
  intros alice bob d d'. split; [reflexivity|]. split; [reflexivity|].
  intros (room & Hroom & _ & _ & Hc).
  assert (room = Room.mk "general" alice [alice; bob] [alice]) as ->.
  { assert (room_named "general" d'
            = Some (Room.mk "general" alice [alice; bob] [alice])) as Hd'
      by reflexivity.
    congruence. }
  apply (Hc alice); by left.
Qed.

(** C4.  Approving twice leaves the database, and the response, as
    approving once does, from every database and in both revisions. *)
Theorem approveJoin_idempotent n e d :
  Server.approveJoin n e (snd (Server.approveJoin n e d))
  = Server.approveJoin n e d
  ∧ Part000.approveJoin n e (snd (Part000.approveJoin n e d))
    = Part000.approveJoin n e d.
Proof.
  assert (∀ rs, Mongo.updateOne (Room.byName n) (approved e)
                  (Mongo.updateOne (Room.byName n) (approved e) rs)
                = Mongo.updateOne (Room.byName n) (approved e) rs) as Hidem.
  { intros rs. rewrite updateOne_twice by (unfold Room.byName; by intros r <-).
    apply updateOne_ext. intros. apply approved_idemp. }
  split.
  - assert (∀ rs, Mongo.updateOne (Room.byName n)
                    (Room.apply_update
                       [Room.addToSet Room.Members e;
                        Room.pull Room.JoinRequests e]) rs
                  = Mongo.updateOne (Room.byName n) (approved e) rs) as Hupd.
    { intros rs. apply updateOne_ext. intros. apply apply_approve. }
    unfold Server.approveJoin. rewrite !Hupd. f_equal.
    unfold set_rooms; simpl. f_equal. apply Hidem.
  - rewrite !Part000_approveJoin_unfold. simpl. f_equal.
    + unfold room_named; simpl.
      rewrite findOne_updateOne by (unfold Room.byName; by intros r <-).
      by destruct (Mongo.findOne _ (rooms d)).
    + unfold set_rooms; simpl. f_equal. apply Hidem.
Qed.

(** ** Room deletion *)

Lemma find_all {A} (c : list A) : Mongo.find (λ _, True) c = c.
Proof. apply filter_Forall_id, Forall_forall. done. Qed.

Lemma matches_room id m :
  Message.matches
    (Message.And (Message.Receiver id) (Message.IsRoom true)) m
  ↔ room_message id m.
Proof.
  unfold room_message; simpl.
  rewrite andb_True, !bool_decide_spec. done.
Qed.

Lemma deleteMany_room id ms :
  Message.deleteMany
    (Message.And (Message.Receiver id) (Message.IsRoom true)) ms
  = filter (λ m, ¬ room_message id m) ms.
Proof.
  unfold Message.deleteMany, Mongo.deleteMany.
  apply list_filter_iff. intros m. by rewrite matches_room.
Qed.

(** A filter that keeps everything a second filter keeps does not change
    what the second one selects. *)
Lemma filter_filter_absorb {A} (P Q : A → Prop)
    `{!∀ x, Decision (P x)} `{!∀ x, Decision (Q x)} (l : list A) :
  (∀ x, Q x → P x) → filter Q (filter P l) = filter Q l.
Proof.
  intros HQP. rewrite list_filter_filter. apply list_filter_iff.
  intros x. split; [tauto|auto].
Qed.

(** C5.  Under the unique index on room names, [/deleteRoom/:name] leaves
    no room of that name in the store or in the list [GET /rooms] sends,
    removes exactly the messages addressed to that room
    ([receiver == name] and [isRoom == true]), and keeps every private
    message and every message addressed to another receiver as it was. *)
Theorem deleteRoom_cascade name d :
  Room.unique (rooms d) →
  let d' := snd (Part000.deleteRoom name d) in
  room_named name d' = None
  ∧ fst (Part000.getRooms d')
    = res_json (Rooms (filter (λ r, Room.name r ≠ name) (rooms d)))
  ∧ messages d' = filter (λ m, ¬ room_message name m) (messages d)
  ∧ filter (λ m, Message.isRoom m = false) (messages d')
    = filter (λ m, Message.isRoom m = false) (messages d)
  ∧ (∀ other, other ≠ name →
       filter (λ m, Message.receiver m = other) (messages d')
       = filter (λ m, Message.receiver m = other) (messages d))
  ∧ users d' = users d.
Proof.
  intros Hu d'.
  assert (rooms d' = filter (λ r, Room.name r ≠ name) (rooms d)) as Hrooms.
  { unfold d'; simpl. by apply deleteOne_unique. }
  assert (messages d' = filter (λ m, ¬ room_message name m) (messages d))
    as Hmsgs.
  { unfold d'; simpl. apply deleteMany_room. }
  split; [|split; [|split; [|split; [|split]]]].
  - unfold room_named. rewrite Hrooms. apply findOne_None, Forall_forall.
    intros r Hr. apply list_elem_of_filter in Hr as [Hne _]. done.
  - change (fst (Part000.getRooms d'))
      with (res_json (Rooms (Mongo.find (λ _, True) (rooms d')))).
    by rewrite find_all, Hrooms.
  - done.
  - rewrite Hmsgs. apply filter_filter_absorb.
    intros m Hp [_ Hr]. congruence.
  - intros other Hne. rewrite Hmsgs. apply filter_filter_absorb.
    intros m Hp [Hr _]. congruence.
  - done.
Qed.

Lemma deleteRoom_cascade_witness :
  Room.unique (rooms Sample.d0)
  ∧ messages (snd (Part000.deleteRoom "general" Sample.d0))
    = filter (λ m, ¬ room_message "general" m) (messages Sample.d0).
Proof.
  assert (Room.unique (rooms Sample.d0)) as Hu.
  { unfold Room.unique. apply (bool_decide_unpack _). vm_compute. exact I. }
  split; [exact Hu|].
  exact (proj1 (proj2 (proj2 (deleteRoom_cascade "general" Sample.d0 Hu)))).
Defined.

(** ** Message retrieval *)

#[local] Instance earlier_total : Total Message.earlier.
Proof. intros m1 m2. unfold Message.earlier. lia. Qed.

#[local] Instance earlier_trans : Transitive Message.earlier.
Proof. intros m1 m2 m3. unfold Message.earlier. lia. Qed.

Lemma sort_sorted ms : StronglySorted Message.earlier (Message.sort ms).
Proof. apply StronglySorted_merge_sort; apply _. Qed.

Lemma sort_perm ms : Message.sort ms ≡ₚ ms.
Proof. apply merge_sort_Permutation. Qed.

Lemma elem_of_sort m ms : m ∈ Message.sort ms ↔ m ∈ ms.
Proof. by rewrite sort_perm. Qed.

(** The two filters of [GET /messages/:type/:id], read as predicates. *)
Lemma messagesQuery_room id me :
  Server.messagesQuery "room" id me
  = Message.And (Message.Receiver id) (Message.IsRoom true).
Proof. reflexivity. Qed.

Lemma messagesQuery_other type id me :
  type ≠ "room" →
  Server.messagesQuery type id me
  = Message.And (Message.IsRoom false)
      (Message.Or
         (Message.And (Message.SenderEmail me) (Message.Receiver id))
         (Message.And (Message.SenderEmail id) (Message.Receiver me))).
Proof.
  intros Hne. unfold Server.messagesQuery.
  by rewrite bool_decide_eq_false_2.
Qed.

Lemma matches_private type id me m :
  type ≠ "room" →
  Message.matches (Server.messagesQuery type id me) m
  ↔ private_message me id m.
Proof.
  intros Hne. rewrite messagesQuery_other by done.
  unfold private_message; simpl.
  rewrite andb_True, orb_True, !andb_True, !bool_decide_spec. done.
Qed.

Lemma getMessages_room id me d :
  Server.getMessages "room" id me d
  = (res_json (Messages (Message.sort (filter (room_message id) (messages d)))),
     d).
Proof.
  unfold Server.getMessages. rewrite messagesQuery_room.
  unfold Message.find, Mongo.find.
  by rewrite (list_filter_iff _ (room_message id) _ (matches_room id)).
Qed.

Lemma getMessages_other type id me d :
  type ≠ "room" →
  Server.getMessages type id me d
  = (res_json
       (Messages (Message.sort (filter (private_message me id) (messages d)))),
     d).
Proof.
  intros Hne. unfold Server.getMessages, Message.find, Mongo.find.
  by rewrite (list_filter_iff _ (private_message me id) _
                (λ m, matches_private type id me m Hne)).
Qed.

Lemma private_message_sym me id m :
  private_message me id m ↔ private_message id me m.
Proof. unfold private_message. tauto. Qed.

(** C6.  A private fetch of the conversation with [B] on behalf of [A]
    returns the private messages between the two, each as often as it is
    stored, in ascending order of time; the fetch with the two peers
    exchanged returns the same messages. *)
Theorem private_conversation A B d :
  ∃ ms ms',
    fst (Server.getMessages "private" B A d) = res_json (Messages ms)
    ∧ fst (Server.getMessages "private" A B d) = res_json (Messages ms')
    ∧ StronglySorted Message.earlier ms
    ∧ ms ≡ₚ filter (private_message A B) (messages d)
    ∧ (∀ m, m ∈ ms ↔ m ∈ messages d ∧ private_message A B m)
    ∧ ms ≡ₚ ms'.
Proof.
  assert ("private" ≠ "room") as Hne by done.
  exists (Message.sort (filter (private_message A B) (messages d))),
    (Message.sort (filter (private_message B A) (messages d))).
  rewrite !getMessages_other by done. simpl.
  split; [done|]. split; [done|]. split; [apply sort_sorted|].
  split; [apply sort_perm|]. split.
  - intros m. rewrite elem_of_sort, list_elem_of_filter. tauto.
  - rewrite !sort_perm.
    by rewrite (list_filter_iff _ _ (messages d) (private_message_sym A B)).
Qed.

(** C7.  A room fetch returns the messages addressed to that room
    ([receiver == id] and [isRoom == true]), each as often as it is stored,
    in ascending order of time. *)
Theorem room_conversation id me d :
  ∃ ms,
    fst (Server.getMessages "room" id me d) = res_json (Messages ms)
    ∧ StronglySorted Message.earlier ms
    ∧ ms ≡ₚ filter (room_message id) (messages d)
    ∧ (∀ m, m ∈ ms ↔ m ∈ messages d ∧ room_message id m).
Proof.
  exists (Message.sort (filter (room_message id) (messages d))).
  rewrite getMessages_room. simpl.
  split; [done|]. split; [apply sort_sorted|]. split; [apply sort_perm|].
  intros m. rewrite elem_of_sort, list_elem_of_filter. tauto.
Qed.

(** C10.  The route has two branches: the type ["room"] selects the room
    filter ([receiver == id] and [isRoom == true]), and every other type,
    not only ["private"], selects the private filter ([isRoom == false]
    and sender and receiver being [me] and [id] in either order), so the
    fetch sends the private conversation between [me] and [id], as it does
    for the type ["private"]. *)
Theorem messages_dispatch type id me d :
  type ≠ "room" →
  Server.messagesQuery "room" id me
  = Message.And (Message.Receiver id) (Message.IsRoom true)
  ∧ Server.messagesQuery type id me
    = Message.And (Message.IsRoom false)
        (Message.Or
           (Message.And (Message.SenderEmail me) (Message.Receiver id))
           (Message.And (Message.SenderEmail id) (Message.Receiver me)))
  ∧ Server.messagesQuery type id me = Server.messagesQuery "private" id me
  ∧ Server.getMessages type id me d = Server.getMessages "private" id me d
  ∧ (∀ m, m ∈ fetched (fst (Server.getMessages type id me d))
          ↔ m ∈ messages d ∧ private_message me id m)
  ∧ (∀ m, m ∈ fetched (fst (Server.getMessages "room" id me d))
          ↔ m ∈ messages d ∧ room_message id m).
Proof.
  intros Hne. split; [reflexivity|]. split; [by apply messagesQuery_other|].
  split; [by rewrite !messagesQuery_other|].
  split; [by rewrite !getMessages_other|]. split.
  - intros m. rewrite getMessages_other by done.
    unfold fetched, res_json; cbn [fst json].
    rewrite elem_of_sort, list_elem_of_filter. tauto.
  - intros m. rewrite getMessages_room.
    unfold fetched, res_json; cbn [fst json].
    rewrite elem_of_sort, list_elem_of_filter. tauto.
Qed.

Lemma messages_dispatch_witness :
  let alice := "alice@example.com" in
  let bob := "bob@example.com" in
  Server.messagesQuery "room" bob alice
  = Message.And (Message.Receiver bob) (Message.IsRoom true)
  ∧ Server.messagesQuery "Room" bob alice
    = Message.And (Message.IsRoom false)
        (Message.Or
           (Message.And (Message.SenderEmail alice) (Message.Receiver bob))
           (Message.And (Message.SenderEmail bob) (Message.Receiver alice)))
  ∧ Server.messagesQuery "Room" bob alice
    = Server.messagesQuery "private" bob alice
  ∧ Server.getMessages "Room" bob alice Sample.d0
    = Server.getMessages "private" bob alice Sample.d0
  ∧ (∀ m, m ∈ fetched (fst (Server.getMessages "Room" bob alice Sample.d0))
          ↔ m ∈ messages Sample.d0 ∧ private_message alice bob m)
  ∧ (∀ m, m ∈ fetched (fst (Server.getMessages "room" bob alice Sample.d0))
          ↔ m ∈ messages Sample.d0 ∧ room_message bob m).
Proof.
  apply (messages_dispatch "Room" "bob@example.com" "alice@example.com"
           Sample.d0).
  discriminate.
Defined.

(** The type is compared as it is: a room fetch spelled ["Room"] is a
    private fetch, and sends the private messages, not the room's. *)
Example getMessages_other_type_sample :
  fst (Server.getMessages "Room" "bob@example.com" "alice@example.com"
         Sample.d0)
  = res_json (Messages [Sample.m3; Sample.m2])
  ∧ fst (Server.getMessages "Room" "general" "" Sample.d0)
    = res_json (Messages []).
Proof. split; reflexivity. Qed.

(** The sample log, fetched. *)
Example getMessages_private_sample :
  fst (Server.getMessages "private" "bob@example.com" "alice@example.com"
         Sample.d0)
  = res_json (Messages [Sample.m3; Sample.m2]).
Proof. reflexivity. Qed.

Example getMessages_room_sample :
  fst (Server.getMessages "room" "general" "" Sample.d0)
  = res_json (Messages [Sample.m1]).
Proof. reflexivity. Qed.

(** ** Identities *)

Lemma select_same_but_password u v :
  same_but_password u v ↔ User.select u = User.select v.
Proof.
  destruct u, v. unfold same_but_password, same_public, User.select; simpl.
  split; [intros (-> & -> & -> & ->); done|]. by intros [= -> -> -> ->].
Qed.

(** C9, as stated.  [GET /users] does not send the name, email and avatar
    of each identity only: every entry carries the [_id] of the document
    as well.  Two stores whose one user has the same name, email, avatar
    and password hash, under different [_id]s, get different responses. *)
Lemma getUsers_sends_id :
  let d1 := mkDb [Sample.alice] [] [] in
  let d2 := mkDb [Sample.alice_again] [] [] in
  Forall2 same_public (users d1) (users d2)
  ∧ User.password <$> users d1 = User.password <$> users d2
  ∧ fst (Server.getUsers d1)
    = res_json
        (Users
           [User.mkView "65f0c0ffee00000000000100" "Alice"
              "alice@example.com" ""])
  ∧ fst (Server.getUsers d1) ≠ fst (Server.getUsers d2).
Proof.
  intros d1 d2. split; [|split; [|split]].
  - by repeat constructor.
  - reflexivity.
  - reflexivity.
  - discriminate.
Qed.

(** C9, amended.  [GET /users] sends, for each identity in insertion
    order, its [_id], name, email and avatar and nothing else, so never
    the password hash: two user stores that differ in password hashes
    only get the same response. *)
Theorem getUsers_hides_password d1 d2 :
  Forall2 same_but_password (users d1) (users d2) →
  fst (Server.getUsers d1)
  = res_json
      (Users
         ((λ u, User.mkView (User._id u) (User.name u) (User.email u)
                  (User.avatar u)) <$> users d1))
  ∧ fst (Server.getUsers d1) = fst (Server.getUsers d2).
Proof.
  intros Hsame. unfold Server.getUsers; simpl. rewrite !find_all.
  split; [done|]. do 2 f_equal.
  induction Hsame as [|u v us vs Huv _ IH]; [done|].
  csimpl. f_equal; [by apply select_same_but_password|done].
Qed.

Lemma getUsers_hides_password_witness :
  let d1 := mkDb [Sample.alice; Sample.bob] [] [] in
  let d2 := mkDb [Sample.alice'; Sample.bob] [] [] in
  Forall2 same_but_password (users d1) (users d2)
  ∧ User.password <$> users d1 ≠ User.password <$> users d2
  ∧ fst (Server.getUsers d1) = fst (Server.getUsers d2).
Proof.
  assert (Forall2 same_but_password [Sample.alice; Sample.bob]
            [Sample.alice'; Sample.bob]) as Hsame.
  { repeat constructor. }
  split; [exact Hsame|]. split; [discriminate|].
  exact (proj2 (getUsers_hides_password
                  (mkDb [Sample.alice; Sample.bob] [] [])
                  (mkDb [Sample.alice'; Sample.bob] [] []) Hsame)).
Defined.

(** C8.  [POST /login] answers 200 exactly when an identity with the
    email is found and [bcrypt.compare] accepts the password against its
    stored hash.  No identity: 400 "User not found"; a rejected password:
    400 "Wrong password"; neither response carries a token.  A 200
    response carries the token signed for the email. *)
Theorem login_outcomes (bcrypt_compare : string → string → bool)
    (jwt_sign : string → string → string) (JWT_SECRET : option string)
    (email password : string) (d : db) :
  let r := fst (Server.login bcrypt_compare jwt_sign JWT_SECRET
                  email password d) in
  (status r = 200 ↔
     ∃ user, identity_of email d = Some user
       ∧ bcrypt_compare password (User.password user) = true)
  ∧ (identity_of email d = None →
       r = res_status 400 (Msg "User not found"))
  ∧ (∀ user, identity_of email d = Some user →
       bcrypt_compare password (User.password user) = false →
       r = res_status 400 (Msg "Wrong password"))
  ∧ (status r ≠ 200 → token_of r = None)
  ∧ (status r = 200 →
       token_of r = Some (jwt_sign email (Server.secret JWT_SECRET))).
Proof.
  unfold Server.login, identity_of.
  destruct (Mongo.findOne _ (users d)) as [user|]; simpl.
  - destruct (bcrypt_compare password (User.password user)) eqn:Hok; simpl.
    + split; [split; [by exists user|done]|].
      split; [done|]. split; [intros u [= <-]; congruence|]. done.
    + split; [split; [done|intros (u & [= <-] & ?); congruence]|].
      split; [done|]. split; [by intros u [= <-]|]. done.
  - split; [split; [done|by intros (u & ? & _)]|]. done.
Qed.

Example login_sample_ok :
  fst (Server.login Sample.compare Sample.sign None
         "alice@example.com" "wonderland" Sample.d0)
  = res_json (Session "alice@example.com.secret" "alice@example.com"
                "Alice" "").
Proof. reflexivity. Qed.

Example login_sample_wrong_password :
  fst (Server.login Sample.compare Sample.sign None
         "alice@example.com" "builder" Sample.d0)
  = res_status 400 (Msg "Wrong password").
Proof. reflexivity. Qed.

Example login_sample_not_found :
  fst (Server.login Sample.compare Sample.sign None
         "carol@example.com" "wonderland" Sample.d0)
  = res_status 400 (Msg "User not found").
Proof. reflexivity. Qed.

Lemma findOne_app_None {A} (P : A → Prop) `{!∀ x, Decision (P x)} c c' :
  Mongo.findOne P c = None → Mongo.findOne P (c ++ c') = Mongo.findOne P c'.
Proof.
  induction c as [|x c IH]; simpl; [done|]. case_decide; [done|auto].
Qed.

Lemma findOne_None_email e c :
  Mongo.findOne (User.byEmail e) c = None ↔ e ∉ User.email <$> c.
Proof.
  rewrite findOne_None, Forall_forall, list_elem_of_fmap.
  unfold User.byEmail. split.
  - intros Hc (u & -> & Hu). by apply (Hc u).
  - intros Hc u Hu <-. apply Hc. by exists u.
Qed.

Lemma records_none e c :
  e ∉ User.email <$> c → filter (User.byEmail e) c = [].
Proof.
  intros He. induction c as [|u c IH]; [done|].
  rewrite fmap_cons, not_elem_of_cons in He. destruct He as [Hne He].
  rewrite filter_cons_False by (unfold User.byEmail; congruence). auto.
Qed.

(** Under the unique index an email that is registered has one record. *)
Lemma records_single e c u :
  User.unique c → u ∈ c → User.email u = e →
  length (filter (User.byEmail e) c) = 1.
Proof.
  unfold User.unique. intros Hc Hu He.
  induction c as [|v c IH]; [by apply elem_of_nil in Hu|].
  rewrite fmap_cons in Hc. apply NoDup_cons in Hc as [Hv Hc].
  destruct (decide (User.email v = e)) as [Hve|Hve].
  - rewrite filter_cons_True by done.
    rewrite records_none by congruence. done.
  - rewrite filter_cons_False by done. apply IH; [done|].
    apply elem_of_cons in Hu as [->|Hu]; [done|done].
Qed.

(** Registration keeps the unique index. *)
Lemma register_unique bcrypt_hash ObjectId name e password d :
  User.unique (users d) →
  User.unique
    (users (snd (Server.register bcrypt_hash ObjectId name e password d))).
Proof.
  intros Hu. unfold Server.register.
  destruct (Mongo.findOne _ (users d)); [done|].
  unfold User.create; simpl. case_decide as He; [done|]. simpl.
  unfold User.unique in *. rewrite fmap_app. apply NoDup_app.
  split; [done|]. split; [|apply NoDup_singleton].
  intros x Hx Hx'. apply list_elem_of_singleton in Hx'. by subst.
Qed.

(** C2.  With the unique index in force, registering an email twice,
    with whatever names and passwords, answers the second call with 400
    "User already exists", leaves the store as the first call left it, and
    leaves exactly one identity record for the email. *)
Theorem register_twice (bcrypt_hash : string → nat → string)
    (ObjectId : list User.t → string)
    (name1 password1 name2 password2 e : string) (d : db) :
  User.unique (users d) →
  let first := Server.register bcrypt_hash ObjectId name1 e password1 d in
  let second :=
    Server.register bcrypt_hash ObjectId name2 e password2 (snd first) in
  fst second = res_status 400 (Msg "User already exists")
  ∧ snd second = snd first
  ∧ length (records_of e (snd second)) = 1
  ∧ (fst first = res_status 400 (Msg "User already exists")
     ∨ fst first = res_json (Msg "Registered successfully")).
Proof.
  intros Hu first second. unfold records_of.
  destruct (Mongo.findOne (User.byEmail e) (users d)) as [u|] eqn:E.
  - assert (first = (res_status 400 (Msg "User already exists"), d)) as Hf.
    { unfold first, Server.register. by rewrite E. }
    assert (second = (res_status 400 (Msg "User already exists"), d)) as Hs.
    { unfold second. rewrite Hf. unfold Server.register; simpl.
      by rewrite E. }
    rewrite Hs, Hf; simpl.
    split; [done|]. split; [done|]. split; [|by left].
    apply findOne_Some in E as [Hin He]. by eapply records_single.
  - set (u0 := User.mk (ObjectId (users d)) name1 e
                 (bcrypt_hash password1 10) "").
    assert (first = (res_json (Msg "Registered successfully"),
                     set_users (users d ++ [u0]) d)) as Hf.
    { unfold first, Server.register, User.create. rewrite E.
      cbn [User.email]. by rewrite decide_False by by apply findOne_None_email. }
    assert (second = (res_status 400 (Msg "User already exists"),
                      set_users (users d ++ [u0]) d)) as Hs.
    { unfold second. rewrite Hf. unfold Server.register; simpl.
      rewrite findOne_app_None by done. simpl.
      by rewrite decide_True by done. }
    rewrite Hs, Hf; simpl.
    split; [done|]. split; [done|]. split; [|by right].
    rewrite filter_app, records_none by by apply findOne_None_email.
    by rewrite filter_cons_True by done.
Qed.

Lemma register_twice_witness :
  let carol := "carol@example.com" in
  let first :=
    Server.register Sample.hash Sample.ObjectId "Carol" carol "pw1"
      Sample.d0 in
  let second :=
    Server.register Sample.hash Sample.ObjectId "Caroline" carol "pw2"
      (snd first) in
  fst second = res_status 400 (Msg "User already exists")
  ∧ snd second = snd first
  ∧ length (records_of carol (snd second)) = 1
  ∧ (fst first = res_status 400 (Msg "User already exists")
     ∨ fst first = res_json (Msg "Registered successfully")).
Proof.
  apply (register_twice Sample.hash Sample.ObjectId "Carol" "pw1" "Caroline"
           "pw2"
           "carol@example.com" Sample.d0).
  unfold User.unique. apply (bool_decide_unpack _). vm_compute. exact I.
Defined.

Example register_sample :
  snd (Server.register Sample.hash Sample.ObjectId "Carol"
         "carol@example.com" "pw1" Sample.d0)
  = set_users
      [Sample.alice; Sample.bob;
       User.mk "65f0c0ffee00000000000102" "Carol" "carol@example.com"
         "$2a$pw1" ""] Sample.d0.
Proof. reflexivity. Qed.

(** * Further properties of the routes *)

(** ** Room creation *)

Lemma findOne_None_name n c :
  Mongo.findOne (Room.byName n) c = None ↔ n ∉ Room.name <$> c.
Proof.
  rewrite findOne_None, Forall_forall, list_elem_of_fmap.
  unfold Room.byName. split.
  - intros Hc (r & -> & Hr). by apply (Hc r).
  - intros Hc r Hr <-. apply Hc. by exists r.
Qed.

Lemma createRoom_unfold name creator d :
  Server.createRoom name creator d
  = match room_named name d with
    | Some _ => (res_status 400 (Msg "Room exists"), d)
    | None =>
        (res_json (Msg "Room created"),
         set_rooms (rooms d ++ [Room.mk name creator [creator] []]) d)
    end.
Proof.
  unfold Server.createRoom, room_named.
  destruct (Mongo.findOne _ (rooms d)) eqn:E; [done|].
  unfold Room.create. cbn [Room.name].
  by rewrite decide_False by by apply findOne_None_name.
Qed.

(** X1.  Creating a room under a name that is not taken answers 200
    "Room created" and appends, after the rooms already there, a room
    with the creator as its only member and nobody pending; the room is
    then found under its name and listed last by [GET /rooms]. *)
Theorem createRoom_fresh name creator d :
  room_named name d = None →
  let new := Room.mk name creator [creator] [] in
  let d' := snd (Server.createRoom name creator d) in
  fst (Server.createRoom name creator d) = res_json (Msg "Room created")
  ∧ d' = set_rooms (rooms d ++ [new]) d
  ∧ room_named name d' = Some new
  ∧ fst (Server.getRooms d') = res_json (Rooms (rooms d ++ [new])).
Proof.
  intros Hnone new d'. unfold d'. rewrite createRoom_unfold, Hnone; simpl.
  split; [done|]. split; [done|]. split.
  - unfold room_named; simpl. rewrite findOne_app_None by done. simpl.
    by rewrite decide_True.
  - by rewrite find_all.
Qed.

Lemma createRoom_fresh_witness :
  room_named "lobby" Sample.d0 = None
  ∧ room_named "lobby"
      (snd (Server.createRoom "lobby" "bob@example.com" Sample.d0))
    = Some (Room.mk "lobby" "bob@example.com" ["bob@example.com"] []).
Proof.
  split; [reflexivity|].
  exact (proj1 (proj2 (proj2
           (createRoom_fresh "lobby" "bob@example.com" Sample.d0 eq_refl)))).
Defined.





(** X3.  [POST /createRoom] answers 200 or 400 on every store: the lookup
    before the insertion rules out the duplicate-key error, so the 500 of
    the [catch] block is never sent for it; and a 400 leaves the store
    untouched. *)
Theorem createRoom_status name creator d :
  let r := Server.createRoom name creator d in
  (fst r = res_json (Msg "Room created") ∧ room_named name d = None)
  ∨ (fst r = res_status 400 (Msg "Room exists") ∧ snd r = d
     ∧ is_Some (room_named name d)).
Proof.
  intros r. unfold r. rewrite createRoom_unfold.
  destruct (room_named name d) eqn:E; [right|left]; by eauto.
Qed.

(** ** Registration and login *)

Lemma register_unfold bcrypt_hash ObjectId name e password d :
  Server.register bcrypt_hash ObjectId name e password d
  = match identity_of e d with
    | Some _ => (res_status 400 (Msg "User already exists"), d)
    | None =>
        (res_json (Msg "Registered successfully"),
         set_users
           (users d
            ++ [User.mk (ObjectId (users d)) name e
                  (bcrypt_hash password 10) ""]) d)
    end.
Proof.
  unfold Server.register, identity_of.
  destruct (Mongo.findOne _ (users d)) eqn:E; [done|].
  unfold User.create. cbn [User.email].
  by rewrite decide_False by by apply findOne_None_email.
Qed.

(** X4.  [POST /register] answers 200 or 400 on every store, never the
    500 of its [catch] block: the lookup before the insertion rules out
    the duplicate-key error; a 400 leaves the store untouched, and a 200
    stores the hash of the password, not the password, with an empty
    avatar, under the [_id] drawn for the document. *)
Theorem register_status bcrypt_hash ObjectId name e password d :
  let r := Server.register bcrypt_hash ObjectId name e password d in
  (fst r = res_json (Msg "Registered successfully")
   ∧ identity_of e d = None
   ∧ identity_of e (snd r)
     = Some
         (User.mk (ObjectId (users d)) name e (bcrypt_hash password 10) ""))
  ∨ (fst r = res_status 400 (Msg "User already exists") ∧ snd r = d
     ∧ is_Some (identity_of e d)).
Proof.
  intros r. unfold r. rewrite register_unfold.
  destruct (identity_of e d) eqn:E; [right; by eauto|left].
  split; [done|]. split; [done|]. unfold identity_of in *; simpl.
  rewrite findOne_app_None by done. simpl. by rewrite decide_True.
Qed.

(** X5.  Registration followed by login is a round trip whenever
    [bcrypt.compare] accepts a password against its own hash: after an
    email that was not known has been registered, logging in with the same
    email and password answers 200 with a token for the email, the
    registered name and an empty avatar, and leaves the store alone. *)
Theorem register_then_login
    (bcrypt_hash : string → nat → string)
    (ObjectId : list User.t → string)
    (bcrypt_compare : string → string → bool)
    (jwt_sign : string → string → string) (JWT_SECRET : option string)
    (name e password : string) (d : db) :
  bcrypt_compare password (bcrypt_hash password 10) = true →
  identity_of e d = None →
  let d' := snd (Server.register bcrypt_hash ObjectId name e password d) in
  Server.login bcrypt_compare jwt_sign JWT_SECRET e password d'
  = (res_json (Session (jwt_sign e (Server.secret JWT_SECRET)) e name ""),
     d').
Proof.
  intros Hok Hnone d'. unfold d'. rewrite register_unfold, Hnone.
  unfold Server.login, identity_of in *; simpl.
  rewrite findOne_app_None by done. simpl.
  rewrite decide_True by done. simpl. by rewrite Hok.
Qed.

Lemma register_then_login_witness :
  let d' :=
    snd (Server.register Sample.hash Sample.ObjectId "Carol"
           "carol@example.com" "pw1" Sample.d0) in
  Server.login Sample.compare Sample.sign None "carol@example.com" "pw1" d'
  = (res_json
       (Session (Sample.sign "carol@example.com" (Server.secret None))
          "carol@example.com" "Carol" ""), d').
Proof.
  apply (register_then_login Sample.hash Sample.ObjectId Sample.compare
           Sample.sign None
           "Carol" "carol@example.com" "pw1" Sample.d0);
    reflexivity.
Defined.

(** X6.  A successful registration shows in [GET /users] as one more
    entry, after the entries already listed and in their order, with the
    [_id] drawn for the new document, the registered name and email and
    an empty avatar. *)
Theorem register_then_getUsers bcrypt_hash ObjectId name e password d :
  identity_of e d = None →
  let d' := snd (Server.register bcrypt_hash ObjectId name e password d) in
  ∃ us,
    fst (Server.getUsers d) = res_json (Users us)
    ∧ fst (Server.getUsers d')
      = res_json (Users (us ++ [User.mkView (ObjectId (users d)) name e ""])).
Proof.
  intros Hnone d'. exists (User.select <$> users d).
  unfold d'. rewrite register_unfold, Hnone.
  unfold Server.getUsers; simpl. rewrite !find_all, fmap_app. done.
Qed.

Lemma register_then_getUsers_witness :
  identity_of "carol@example.com" Sample.d0 = None
  ∧ ∃ us,
      fst (Server.getUsers Sample.d0) = res_json (Users us)
      ∧ fst (Server.getUsers
               (snd (Server.register Sample.hash Sample.ObjectId "Carol"
                       "carol@example.com" "pw1" Sample.d0)))
        = res_json
            (Users
               (us ++ [User.mkView (Sample.ObjectId (users Sample.d0))
                         "Carol" "carol@example.com" ""])).
Proof.
  split; [reflexivity|].
  exact (register_then_getUsers Sample.hash Sample.ObjectId "Carol"
           "carol@example.com" "pw1" Sample.d0 eq_refl).
Defined.

(** A server started without [JWT_SECRET], or with an empty one, answers
    every login exactly as a server whose secret is the literal
    ["secret"]. *)
Remark login_default_secret
    (bcrypt_compare : string → string → bool)
    (jwt_sign : string → string → string) (e password : string) (d : db) :
  Server.login bcrypt_compare jwt_sign None e password d
  = Server.login bcrypt_compare jwt_sign (Some "secret") e password d
  ∧ Server.login bcrypt_compare jwt_sign (Some "") e password d
    = Server.login bcrypt_compare jwt_sign (Some "secret") e password d.
Proof. done. Qed.

(** ** Membership requests on missing rooms and on other rooms *)

Lemma Server_requestJoinRoom_unfold n e d :
  Server.requestJoinRoom n e d
  = (res_json (Msg "Request sent"),
     set_rooms (Mongo.updateOne (Room.byName n) (requested e) (rooms d)) d).
Proof.
  unfold Server.requestJoinRoom. do 2 f_equal.
  apply updateOne_ext. intros. apply apply_request.
Qed.

Lemma Server_approveJoin_unfold n e d :
  Server.approveJoin n e d
  = (res_json (Msg "User approved"),
     set_rooms (Mongo.updateOne (Room.byName n) (approved e) (rooms d)) d).
Proof.
  unfold Server.approveJoin. do 2 f_equal.
  apply updateOne_ext. intros. apply apply_approve.
Qed.

Lemma Part000_requestJoinRoom_unfold n e d :
  Part000.requestJoinRoom n e d
  = (match room_named n d with
     | Some _ => res_json (Msg "Request sent")
     | None => res_status 404 (Msg "Room not found")
     end,
     set_rooms
       (Mongo.updateOne (Room.byName n) (requested_guarded e) (rooms d)) d).
Proof.
  pose proof (Part000_requestJoinRoom_rooms n e d) as Hrooms.
  apply injective_projections; simpl.
  - unfold Part000.requestJoinRoom, room_named.
    destruct (Mongo.findOne _ (rooms d)); [|done]. by destruct (_ && _).
  - rewrite <- Hrooms. unfold Part000.requestJoinRoom.
    destruct (Mongo.findOne _ (rooms d)); simpl; [|by rewrite set_rooms_id].
    destruct (_ && _); simpl; [done|by rewrite set_rooms_id].
Qed.

(** X7.  A request to join a room that does not exist changes nothing in
    either revision, but the two answer differently: [src/server.js]
    sends 200 "Request sent", [src/unnamed/part_000] sends 404 "Room not
    found". *)
Theorem requestJoinRoom_missing_room n e d :
  room_named n d = None →
  Server.requestJoinRoom n e d = (res_json (Msg "Request sent"), d)
  ∧ Part000.requestJoinRoom n e d
    = (res_status 404 (Msg "Room not found"), d).
Proof.
  intros Hnone.
  rewrite Server_requestJoinRoom_unfold, Part000_requestJoinRoom_unfold, Hnone.
  by rewrite !updateOne_None, set_rooms_id by done.
Qed.

Lemma requestJoinRoom_missing_room_witness :
  room_named "lobby" Sample.d0 = None
  ∧ Server.requestJoinRoom "lobby" "bob@example.com" Sample.d0
    = (res_json (Msg "Request sent"), Sample.d0)
  ∧ Part000.requestJoinRoom "lobby" "bob@example.com" Sample.d0
    = (res_status 404 (Msg "Room not found"), Sample.d0).
Proof.
  split; [reflexivity|].
  exact (requestJoinRoom_missing_room "lobby" "bob@example.com" Sample.d0
           eq_refl).
Defined.

(** X8.  Approving a request for a room that does not exist changes
    nothing in either revision; [src/server.js] still sends 200 "User
    approved", [src/unnamed/part_000] sends 404 "Room not found". *)
Theorem approveJoin_missing_room n e d :
  room_named n d = None →
  Server.approveJoin n e d = (res_json (Msg "User approved"), d)
  ∧ Part000.approveJoin n e d = (res_status 404 (Msg "Room not found"), d).
Proof.
  intros Hnone.
  rewrite Server_approveJoin_unfold, Part000_approveJoin_unfold, Hnone.
  by rewrite !updateOne_None, set_rooms_id by done.
Qed.

Lemma approveJoin_missing_room_witness :
  room_named "lobby" Sample.d0 = None
  ∧ Server.approveJoin "lobby" "bob@example.com" Sample.d0
    = (res_json (Msg "User approved"), Sample.d0)
  ∧ Part000.approveJoin "lobby" "bob@example.com" Sample.d0
    = (res_status 404 (Msg "Room not found"), Sample.d0).
Proof.
  split; [reflexivity|].
  exact (approveJoin_missing_room "lobby" "bob@example.com" Sample.d0
           eq_refl).
Defined.

Lemma requested_idemp e r : requested e (requested e r) = requested e r.
Proof.
  destruct r as [n c ms js]. unfold requested; simpl. f_equal.
  destruct (decide (e ∈ js)) as [Hin|Hin]; [by rewrite decide_True|].
  rewrite decide_True; [done|]. apply elem_of_app. right. by left.
Qed.

Lemma requested_guarded_idemp e r :
  requested_guarded e (requested_guarded e r) = requested_guarded e r.
Proof.
  unfold requested_guarded.
  destruct (decide (e ∈ Room.members r)) as [Hin|Hin].
  - by rewrite decide_True.
  - rewrite decide_False by done. apply requested_idemp.
Qed.

Lemma updateOne_idemp n f rs :
  (∀ r, Room.name (f r) = Room.name r) → (∀ r, f (f r) = f r) →
  Mongo.updateOne (Room.byName n) f (Mongo.updateOne (Room.byName n) f rs)
  = Mongo.updateOne (Room.byName n) f rs.
Proof.
  intros Hname Hidem.
  rewrite updateOne_twice by (unfold Room.byName; intros r <-; apply Hname).
  apply updateOne_ext. intros. apply Hidem.
Qed.

(** X9.  Asking twice to join leaves the response and the whole store as
    asking once does, from every store and in both revisions: nobody is
    listed as pending twice. *)
Theorem requestJoinRoom_idempotent n e d :
  Server.requestJoinRoom n e (snd (Server.requestJoinRoom n e d))
  = Server.requestJoinRoom n e d
  ∧ Part000.requestJoinRoom n e (snd (Part000.requestJoinRoom n e d))
    = Part000.requestJoinRoom n e d.
Proof.
  split.
  - rewrite !Server_requestJoinRoom_unfold. simpl. f_equal.
    unfold set_rooms; simpl. f_equal.
    apply updateOne_idemp; [done|apply requested_idemp].
  - rewrite !Part000_requestJoinRoom_unfold. simpl. f_equal.
    + unfold room_named; simpl.
      rewrite findOne_updateOne
        by (unfold Room.byName; intros r <-; apply requested_guarded_name).
      by destruct (Mongo.findOne _ (rooms d)).
    + unfold set_rooms; simpl. f_equal.
      apply updateOne_idemp;
        [apply requested_guarded_name|apply requested_guarded_idemp].
Qed.

(** X10.  The two revisions of [/approveJoin] leave every store in the
    same state; they differ in the response only. *)
Theorem approveJoin_revisions_agree n e d :
  snd (Part000.approveJoin n e d) = snd (Server.approveJoin n e d).
Proof. by rewrite Server_approveJoin_unfold, Part000_approveJoin_unfold. Qed.

(** X11.  The two revisions of [/requestJoinRoom] leave the store in the
    same state whenever the email is not a member of the room the request
    names; a request by a member is where they part. *)
Theorem requestJoinRoom_revisions_agree n e d :
  (∀ room, room_named n d = Some room → e ∉ Room.members room) →
  snd (Part000.requestJoinRoom n e d) = snd (Server.requestJoinRoom n e d).
Proof.
  intros Hnot.
  rewrite Server_requestJoinRoom_unfold, Part000_requestJoinRoom_unfold.
  simpl. f_equal. apply updateOne_ext. intros r Hr.
  unfold requested_guarded. by rewrite decide_False by by apply Hnot.
Qed.

Lemma requestJoinRoom_revisions_agree_witness :
  snd (Part000.requestJoinRoom "general" "bob@example.com" Sample.d0)
  = snd (Server.requestJoinRoom "general" "bob@example.com" Sample.d0).
Proof.
  apply (requestJoinRoom_revisions_agree "general" "bob@example.com"
           Sample.d0).
  intros room [= <-]. simpl.
  intros Hin. apply list_elem_of_singleton in Hin. discriminate.
Defined.

Lemma findOne_updateOne_other n n' f c :
  n' ≠ n → (∀ r, Room.name (f r) = Room.name r) →
  Mongo.findOne (Room.byName n') (Mongo.updateOne (Room.byName n) f c)
  = Mongo.findOne (Room.byName n') c.
Proof.
  unfold Room.byName. intros Hne Hf.
  induction c as [|r c IH]; simpl; [done|].
  destruct (decide (Room.name r = n)) as [Hn|Hn]; simpl.
  - rewrite (decide_False (P := Room.name (f r) = n'))
      by (rewrite Hf; congruence).
    by rewrite decide_False by congruence.
  - by rewrite IH.
Qed.

(** X12.  A membership request touches the room it names and nothing
    else: the room under any other name, the users and the messages are
    after the request what they were before, for [/requestJoinRoom] and
    [/approveJoin] of both revisions. *)
Theorem membership_frame n n' e d :
  n' ≠ n →
  same_elsewhere n' d (snd (Server.requestJoinRoom n e d))
  ∧ same_elsewhere n' d (snd (Server.approveJoin n e d))
  ∧ same_elsewhere n' d (snd (Part000.requestJoinRoom n e d))
  ∧ same_elsewhere n' d (snd (Part000.approveJoin n e d)).
Proof.
  intros Hne.
  rewrite Server_requestJoinRoom_unfold, Server_approveJoin_unfold,
    Part000_requestJoinRoom_unfold, Part000_approveJoin_unfold.
  unfold same_elsewhere, room_named; simpl.
  rewrite !findOne_updateOne_other
    by first [done | apply requested_guarded_name].
  done.
Qed.

Lemma membership_frame_witness :
  same_elsewhere "random" Sample.d0
    (snd (Server.requestJoinRoom "general" "bob@example.com" Sample.d0))
  ∧ same_elsewhere "random" Sample.d0
      (snd (Server.approveJoin "general" "bob@example.com" Sample.d0))
  ∧ same_elsewhere "random" Sample.d0
      (snd (Part000.requestJoinRoom "general" "bob@example.com" Sample.d0))
  ∧ same_elsewhere "random" Sample.d0
      (snd (Part000.approveJoin "general" "bob@example.com" Sample.d0)).
Proof.
  apply (membership_frame "general" "random" "bob@example.com" Sample.d0).
  discriminate.
Defined.

(** X13.  Approval does not ask for a pending request: approving an email
    that is neither pending nor a member of an existing room appends it to
    the members and leaves the pending list as it was, in both
    revisions. *)
Theorem approveJoin_without_request n e d room :
  room_named n d = Some room →
  e ∉ Room.joinRequests room →
  e ∉ Room.members room →
  let room' :=
    Room.mk (Room.name room) (Room.creator room) (Room.members room ++ [e])
      (Room.joinRequests room) in
  room_named n (snd (Server.approveJoin n e d)) = Some room'
  ∧ room_named n (snd (Part000.approveJoin n e d)) = Some room'.
Proof.
  intros Hroom Hj Hm room'.
  assert (approved e room = room') as <-.
  { unfold approved, room'. rewrite decide_False by done. f_equal.
    apply filter_Forall_id, Forall_forall. by intros x Hx ->. }
  rewrite (room_named_updateOne n (approved e) _ _ (approved_name e)
             (Server_approveJoin_rooms _ _ _)).
  rewrite (room_named_updateOne n (approved e) _ _ (approved_name e)
             (Part000_approveJoin_rooms _ _ _)).
  fold (room_named n d). by rewrite Hroom.
Qed.

Lemma approveJoin_without_request_witness :
  let room' :=
    Room.mk "general" "alice@example.com"
      ["alice@example.com"; "bob@example.com"] [] in
  room_named "general"
    (snd (Server.approveJoin "general" "bob@example.com" Sample.d0))
  = Some room'
  ∧ room_named "general"
      (snd (Part000.approveJoin "general" "bob@example.com" Sample.d0))
    = Some room'.
Proof.
  apply (approveJoin_without_request "general" "bob@example.com" Sample.d0
           Sample.general).
  - reflexivity.
  - simpl. apply not_elem_of_nil.
  - simpl. intros Hin. apply list_elem_of_singleton in Hin. discriminate.
Defined.

(** ** Invariants along sequences of membership requests *)

Lemma new_room_tidy n c : room_tidy (Room.mk n c [c] []).
Proof.
  split; [apply NoDup_singleton|]. split; [apply NoDup_nil_2|]. by left.
Qed.

Lemma NoDup_snoc_fresh {A} (l : list A) x : NoDup l → x ∉ l → NoDup (l ++ [x]).
Proof.
  intros Hl Hx. apply NoDup_app. split; [done|].
  split; [|apply NoDup_singleton].
  intros y Hy Hy'. apply list_elem_of_singleton in Hy'. by subst.
Qed.

Lemma requested_tidy e r : room_tidy r → room_tidy (requested e r).
Proof.
  intros (Hm & Hj & Hc). unfold room_tidy, requested; simpl.
  split; [done|]. split; [|done].
  case_decide; [done|]. by apply NoDup_snoc_fresh.
Qed.

Lemma requested_guarded_tidy e r :
  room_tidy r → room_tidy (requested_guarded e r).
Proof.
  intros Hr. unfold requested_guarded. case_decide; [done|].
  by apply requested_tidy.
Qed.

Lemma approved_tidy e r : room_tidy r → room_tidy (approved e r).
Proof.
  intros (Hm & Hj & Hc). unfold room_tidy, approved; simpl.
  split; [|split].
  - case_decide; [done|]. by apply NoDup_snoc_fresh.
  - by apply NoDup_filter.
  - case_decide; [done|]. apply elem_of_app. by left.
Qed.

Lemma createRoom_Forall (Q : Room.t → Prop) n c d :
  Q (Room.mk n c [c] []) →
  Forall Q (rooms d) → Forall Q (rooms (snd (Server.createRoom n c d))).
Proof.
  intros Hnew Hd. rewrite createRoom_unfold.
  destruct (room_named n d); simpl; [done|].
  apply Forall_app. split; [done|]. by apply Forall_singleton.
Qed.

Lemma createRoom_unique n c d :
  Room.unique (rooms d) → Room.unique (rooms (snd (Server.createRoom n c d))).
Proof.
  intros Hu. rewrite createRoom_unfold. unfold room_named.
  destruct (Mongo.findOne _ (rooms d)) eqn:E; simpl; [done|].
  unfold Room.unique in *. rewrite fmap_app. apply NoDup_snoc_fresh; [done|].
  by apply findOne_None_name.
Qed.

Lemma Server_handle_tidy c d :
  Room.unique (rooms d) ∧ Forall room_tidy (rooms d) →
  Room.unique (rooms (snd (ServerRun.handle c d)))
  ∧ Forall room_tidy (rooms (snd (ServerRun.handle c d))).
Proof.
  intros [Hu Ht]. destruct c as [n c|n e|n e]; simpl ServerRun.handle.
  - split; [by apply createRoom_unique|].
    apply createRoom_Forall; [apply new_room_tidy|done].
  - rewrite Server_requestJoinRoom_rooms. unfold Room.unique.
    rewrite updateOne_names by done. split; [done|].
    apply Forall_updateOne; [apply requested_tidy|done].
  - rewrite Server_approveJoin_rooms. unfold Room.unique.
    rewrite updateOne_names by done. split; [done|].
    apply Forall_updateOne; [apply approved_tidy|done].
Qed.

Lemma Part000_handle_tidy c d :
  Forall room_tidy (rooms d) →
  Forall room_tidy (rooms (snd (Part000Run.handle c d))).
Proof.
  intros Ht. destruct c as [n c|n e|n e|n]; simpl Part000Run.handle.
  - apply createRoom_Forall; [apply new_room_tidy|done].
  - rewrite Part000_requestJoinRoom_rooms.
    apply Forall_updateOne; [apply requested_guarded_tidy|done].
  - rewrite Part000_approveJoin_rooms.
    apply Forall_updateOne; [apply approved_tidy|done].
  - simpl. by apply Forall_deleteOne.
Qed.

(** X14.  On every store that a sequence of [/createRoom],
    [/requestJoinRoom] and [/approveJoin] requests of [src/server.js]
    leads to from the empty store, room names are unique, no room lists an
    email twice among its members or twice among its pending requests, and
    the creator of every room is one of its members. *)
Theorem Server_reachable_tidy cs :
  let d := ServerRun.run cs empty_db in
  Room.unique (rooms d) ∧ Forall room_tidy (rooms d).
Proof.
  assert (∀ d, Room.unique (rooms d) ∧ Forall room_tidy (rooms d) →
               Room.unique (rooms (ServerRun.run cs d))
               ∧ Forall room_tidy (rooms (ServerRun.run cs d))) as Hrun.
  { induction cs as [|c cs IH]; intros d Hd; simpl; [done|].
    by apply IH, Server_handle_tidy. }
  apply Hrun. split; [apply NoDup_nil_2|constructor].
Qed.

(** X15.  On every store that a sequence of [/createRoom],
    [/requestJoinRoom], [/approveJoin] and [/deleteRoom] requests of
    [src/unnamed/part_000] leads to from the empty store, room names are
    unique, no email is both a member of a room and pending for it, no
    room lists an email twice, and the creator of every room is one of
    its members. *)
Theorem Part000_reachable_tidy cs :
  let d := Part000Run.run cs empty_db in
  Room.unique (rooms d)
  ∧ Forall Room.consistent (rooms d)
  ∧ Forall room_tidy (rooms d).
Proof.
  intros d.
  destruct (Part000_run_rooms_ok cs empty_db empty_rooms_ok) as [Hu Hc].
  split; [done|]. split; [done|]. unfold d.
  assert (∀ d, Forall room_tidy (rooms d) →
               Forall room_tidy (rooms (Part000Run.run cs d))) as Hrun.
  { clear. induction cs as [|c cs IH]; intros d Hd; simpl; [done|].
    by apply IH, Part000_handle_tidy. }
  apply Hrun. constructor.
Qed.

Lemma findOne_app_Some {A} (P : A → Prop) `{!∀ x, Decision (P x)} c c' x :
  Mongo.findOne P c = Some x → Mongo.findOne P (c ++ c') = Some x.
Proof.
  induction c as [|y c IH]; simpl; [done|]. case_decide; [done|auto].
Qed.

Lemma subseteq_approved e r : Room.members r ⊆ Room.members (approved e r).
Proof. intros x Hx. apply elem_of_approved_members. by right. Qed.

(** One request of [src/server.js] keeps every room, its creator and its
    members. *)
Lemma Server_handle_keeps c n d room :
  room_named n d = Some room →
  ∃ room', room_named n (snd (ServerRun.handle c d)) = Some room'
    ∧ Room.creator room' = Room.creator room
    ∧ Room.members room ⊆ Room.members room'.
Proof.
  intros Hroom. destruct c as [n0 c|n0 e|n0 e]; simpl ServerRun.handle.
  - exists room. split; [|done]. rewrite createRoom_unfold.
    destruct (room_named n0 d); simpl; [done|].
    unfold room_named in *; simpl. by apply findOne_app_Some.
  - rewrite Server_requestJoinRoom_unfold. unfold room_named in *; simpl.
    destruct (decide (n = n0)) as [->|Hne].
    + exists (requested e room).
      rewrite findOne_updateOne, Hroom
        by (unfold Room.byName; by intros r <-). done.
    + exists room. by rewrite findOne_updateOne_other.
  - rewrite Server_approveJoin_unfold. unfold room_named in *; simpl.
    destruct (decide (n = n0)) as [->|Hne].
    + exists (approved e room).
      rewrite findOne_updateOne, Hroom
        by (unfold Room.byName; by intros r <-).
      split; [done|]. split; [done|]. apply subseteq_approved.
    + exists room. by rewrite findOne_updateOne_other.
Qed.

(** X16.  [src/server.js] never revokes a membership and never removes a
    room: whoever is a member of a room stays one, and the room keeps its
    creator, through every sequence of [/createRoom], [/requestJoinRoom]
    and [/approveJoin] requests. *)
Theorem Server_membership_kept cs n d room e :
  room_named n d = Some room →
  e ∈ Room.members room →
  ∃ room', room_named n (ServerRun.run cs d) = Some room'
    ∧ Room.creator room' = Room.creator room
    ∧ e ∈ Room.members room'.
Proof.
  revert d room. induction cs as [|c cs IH]; intros d room Hroom He; simpl.
  - by exists room.
  - destruct (Server_handle_keeps c n d room Hroom) as (r1 & Hr1 & Hc1 & Hm1).
    destruct (IH _ r1 Hr1 (Hm1 _ He)) as (r2 & Hr2 & Hc2 & Hm2).
    exists r2. split; [done|]. split; [congruence|done].
Qed.

Lemma Server_membership_kept_witness :
  ∃ room',
    room_named "general"
      (ServerRun.run
         [ServerRun.RequestJoinRoom "general" "bob@example.com";
          ServerRun.ApproveJoin "general" "bob@example.com";
          ServerRun.CreateRoom "general" "bob@example.com"] Sample.d0)
    = Some room'
    ∧ Room.creator room' = Room.creator Sample.general
    ∧ "alice@example.com" ∈ Room.members room'.
Proof.
  apply (Server_membership_kept _ "general" Sample.d0 Sample.general
           "alice@example.com").
  - reflexivity.
  - by left.
Defined.

(** X17.  The room routes of [src/unnamed/part_000], [/deleteRoom]
    included, never delete or change a private message or a user: through
    every sequence of them the private messages are the same list, in the
    same order, and so are the users. *)
Theorem Part000_private_messages_kept cs d :
  let d' := Part000Run.run cs d in
  filter (λ m, Message.isRoom m = false) (messages d')
  = filter (λ m, Message.isRoom m = false) (messages d)
  ∧ users d' = users d.
Proof.
  revert d. induction cs as [|c cs IH]; intros d; simpl; [done|].
  destruct (IH (snd (Part000Run.handle c d))) as [Hm Hu].
  cbv zeta in *. rewrite Hm, Hu. clear.
  destruct c as [n c|n e|n e|n]; simpl Part000Run.handle.
  - unfold Part000.createRoom. rewrite createRoom_unfold.
    by destruct (room_named n d).
  - by rewrite Part000_requestJoinRoom_unfold.
  - by rewrite Part000_approveJoin_unfold.
  - simpl. split; [|done]. rewrite deleteMany_room.
    apply filter_filter_absorb. intros m Hp [_ Hr]. congruence.
Qed.

(** ** Sending and fetching messages *)

Lemma fetched_room id me d :
  fetched (fst (Server.getMessages "room" id me d))
  = Message.sort (filter (room_message id) (messages d)).
Proof. by rewrite getMessages_room. Qed.

Lemma fetched_other type id me d :
  type ≠ "room" →
  fetched (fst (Server.getMessages type id me d))
  = Message.sort (filter (private_message me id) (messages d)).
Proof. intros Hne. by rewrite getMessages_other. Qed.

Lemma sort_snoc_True (P : Message.t → Prop) `{!∀ m, Decision (P m)} ms m :
  P m →
  Message.sort (filter P (ms ++ [m])) ≡ₚ m :: Message.sort (filter P ms).
Proof.
  intros Hm. rewrite !sort_perm, filter_app, filter_cons_True by done.
  rewrite filter_nil. by rewrite <- Permutation_cons_append.
Qed.

Lemma sort_snoc_False (P : Message.t → Prop) `{!∀ m, Decision (P m)} ms m :
  ¬ P m → Message.sort (filter P (ms ++ [m])) = Message.sort (filter P ms).
Proof.
  intros Hm. rewrite filter_app, filter_cons_False by done.
  by rewrite filter_nil, app_nil_r.
Qed.

(** X18.  A message posted with [isRoom] set is stored with the server's
    clock as its time and sent back; the next fetch of the room it names
    sends what the fetch before sent and that message, once, still in
    ascending order of time. *)
Theorem postMessages_then_room_fetch now senderEmail senderName receiver
    text file me d :
  let new :=
    Message.mk senderEmail senderName receiver text file true now in
  let posted :=
    Server.postMessages now senderEmail senderName receiver text file true
      d in
  let before := fetched (fst (Server.getMessages "room" receiver me d)) in
  let after :=
    fetched (fst (Server.getMessages "room" receiver me (snd posted))) in
  fst posted = res_json (OneMessage new)
  ∧ after ≡ₚ new :: before
  ∧ StronglySorted Message.earlier after.
Proof.
  intros new posted before after. split; [done|].
  unfold after, before. rewrite !fetched_room. split.
  - by apply sort_snoc_True.
  - apply sort_sorted.
Qed.

(** X19.  A message posted without [isRoom] from one email to another
    shows, once, in the private fetch of either peer: each of the two
    fetches sends what it sent before and that message, in ascending order
    of time. *)
Theorem postMessages_then_private_fetch now senderEmail senderName receiver
    text file d :
  let new :=
    Message.mk senderEmail senderName receiver text file false now in
  let d' :=
    snd (Server.postMessages now senderEmail senderName receiver text file
           false d) in
  let fetch me id d :=
    fetched (fst (Server.getMessages "private" id me d)) in
  fetch senderEmail receiver d' ≡ₚ new :: fetch senderEmail receiver d
  ∧ fetch receiver senderEmail d' ≡ₚ new :: fetch receiver senderEmail d
  ∧ StronglySorted Message.earlier (fetch senderEmail receiver d')
  ∧ StronglySorted Message.earlier (fetch receiver senderEmail d').
Proof.
  intros new d' fetch. unfold fetch.
  rewrite !fetched_other by done.
  split; [|split; [|split; apply sort_sorted]].
  - apply sort_snoc_True. split; [done|]. by left.
  - apply sort_snoc_True. split; [done|]. by right.
Qed.

(** X20.  A message posted to a room changes no other conversation: the
    fetch of any other room and every private fetch send after the post
    what they sent before. *)
Theorem postMessages_room_frame now senderEmail senderName receiver text
    file type id me d :
  (type = "room" → id ≠ receiver) →
  let d' :=
    snd (Server.postMessages now senderEmail senderName receiver text file
           true d) in
  fst (Server.getMessages type id me d')
  = fst (Server.getMessages type id me d).
Proof.
  intros Hother d'. destruct (decide (type = "room")) as [->|Hne].
  - rewrite !getMessages_room. simpl. do 2 f_equal.
    apply sort_snoc_False. intros [Hr _]. simpl in Hr. by apply Hother.
  - rewrite !getMessages_other by done. simpl. do 2 f_equal.
    apply sort_snoc_False. by intros [? _].
Qed.

Lemma postMessages_room_frame_witness :
  let d' :=
    snd (Server.postMessages 40 "alice@example.com" "Alice" "general" "hi"
           "" true Sample.d0) in
  fst (Server.getMessages "room" "random" "" d')
  = fst (Server.getMessages "room" "random" "" Sample.d0).
Proof.
  apply (postMessages_room_frame 40 "alice@example.com" "Alice" "general"
           "hi" "" "room" "random" "" Sample.d0).
  discriminate.
Defined.

(** X21.  A private message changes no other conversation: every room
    fetch, and the private fetch between any two emails that are not its
    sender and its receiver, send after the post what they sent before. *)
Theorem postMessages_private_frame now senderEmail senderName receiver text
    file type id me d :
  (type ≠ "room" →
   ¬ ((senderEmail = me ∧ receiver = id)
      ∨ (senderEmail = id ∧ receiver = me))) →
  let d' :=
    snd (Server.postMessages now senderEmail senderName receiver text file
           false d) in
  fst (Server.getMessages type id me d')
  = fst (Server.getMessages type id me d).
Proof.
  intros Hother d'. destruct (decide (type = "room")) as [->|Hne].
  - rewrite !getMessages_room. simpl. do 2 f_equal.
    apply sort_snoc_False. by intros [_ ?].
  - rewrite !getMessages_other by done. simpl. do 2 f_equal.
    apply sort_snoc_False. intros [_ Hp]. by apply (Hother Hne).
Qed.

Lemma postMessages_private_frame_witness :
  let d' :=
    snd (Server.postMessages 40 "alice@example.com" "Alice"
           "bob@example.com" "hi" "" false Sample.d0) in
  fst (Server.getMessages "private" "carol@example.com" "alice@example.com"
         d')
  = fst (Server.getMessages "private" "carol@example.com"
           "alice@example.com" Sample.d0).
Proof.
  apply (postMessages_private_frame 40 "alice@example.com" "Alice"
           "bob@example.com" "hi" "" "private" "carol@example.com"
           "alice@example.com" Sample.d0).
  intros _ [[_ Hr]|[Hs _]]; discriminate.
Defined.

(** ** The stores of [src/server.js] only grow *)

Section append_only.
Variable bcrypt_hash : string → nat → string.
Variable ObjectId : list User.t → string.
Variable bcrypt_compare : string → string → bool.
Variable jwt_sign : string → string → string.
Variable JWT_SECRET : option string.






End append_only.

(** ** Upload paths *)





Example upload_sample :
  Upload.upload 1700000000000 "cat-1.png"
  = "/uploads/1700000000000-cat-1.png".
Proof. reflexivity. Qed.

(** ** Room deletion, again *)

Lemma deleteOne_None {A} (P : A → Prop) `{!∀ x, Decision (P x)} c :
  Mongo.findOne P c = None → Mongo.deleteOne P c = c.
Proof.
  induction c as [|y c IH]; simpl; [done|].
  case_decide; [done|]. intros ?. f_equal. auto.
Qed.

Lemma deleteRoom_unfold n d :
  Part000.deleteRoom n d
  = (res_json (Msg "Room deleted"),
     mkDb (users d) (Mongo.deleteOne (Room.byName n) (rooms d))
       (filter (λ m, ¬ room_message n m) (messages d))).
Proof.
  unfold Part000.deleteRoom, set_messages, set_rooms; simpl.
  by rewrite deleteMany_room.
Qed.

(** X24.  [/deleteRoom/:name] does not look for the room first: under a
    name that no room has it still answers 200 "Room deleted", leaves
    users and rooms as they are, and deletes the room-addressed messages
    whose receiver is that name. *)
Theorem deleteRoom_missing_room n d :
  room_named n d = None →
  Part000.deleteRoom n d
  = (res_json (Msg "Room deleted"),
     set_messages (filter (λ m, ¬ room_message n m) (messages d)) d).
Proof.
  intros Hnone. rewrite deleteRoom_unfold. by rewrite deleteOne_None.
Qed.

Lemma deleteRoom_missing_room_witness :
  Part000.deleteRoom "lobby" Sample.d0
  = (res_json (Msg "Room deleted"),
     set_messages
       (filter (λ m, ¬ room_message "lobby" m) (messages Sample.d0))
       Sample.d0).
Proof. exact (deleteRoom_missing_room "lobby" Sample.d0 eq_refl). Defined.

Lemma filter_Forall_nil {A} (P : A → Prop) `{!∀ x, Decision (P x)} l :
  Forall (λ x, ¬ P x) l → filter P l = [].
Proof.
  induction 1 as [|x l HP _ IH]; [done|].
  by rewrite filter_cons_False.
Qed.

Lemma room_named_deleted n d :
  Room.unique (rooms d) →
  room_named n (snd (Part000.deleteRoom n d)) = None.
Proof.
  intros Hu. rewrite deleteRoom_unfold. unfold room_named; simpl.
  rewrite deleteOne_unique by done. apply findOne_None, Forall_forall.
  intros r Hr. by apply list_elem_of_filter in Hr as [Hne _].
Qed.

(** X25.  Under the unique index on room names, deleting a room twice
    leaves the response and the whole store as deleting it once does. *)
Theorem deleteRoom_idempotent n d :
  Room.unique (rooms d) →
  Part000.deleteRoom n (snd (Part000.deleteRoom n d))
  = Part000.deleteRoom n d.
Proof.
  intros Hu. pose proof (room_named_deleted n d Hu) as Hnone.
  rewrite (deleteRoom_unfold n (snd _)), deleteOne_None by exact Hnone.
  rewrite deleteRoom_unfold. simpl. do 2 f_equal.
  apply filter_Forall_id, Forall_forall.
  intros m Hm. by apply list_elem_of_filter in Hm as [? _].
Qed.

Lemma deleteRoom_idempotent_witness :
  Part000.deleteRoom "general" (snd (Part000.deleteRoom "general" Sample.d0))
  = Part000.deleteRoom "general" Sample.d0.
Proof.
  apply (deleteRoom_idempotent "general" Sample.d0).
  unfold Room.unique. apply (bool_decide_unpack _). vm_compute. exact I.
Defined.

(** X26.  Under the unique index on room names, once a room is deleted
    the membership routes of [src/unnamed/part_000] answer 404 for its
    name and change nothing, and the name is free again: creating a room
    under it answers 200 and makes a room with the new creator as its only
    member, nobody pending, and no room messages of the old room left. *)
Theorem deleteRoom_then_requests n e creator d :
  Room.unique (rooms d) →
  let d' := snd (Part000.deleteRoom n d) in
  Part000.requestJoinRoom n e d' = (res_status 404 (Msg "Room not found"), d')
  ∧ Part000.approveJoin n e d' = (res_status 404 (Msg "Room not found"), d')
  ∧ fst (Part000.createRoom n creator d') = res_json (Msg "Room created")
  ∧ room_named n (snd (Part000.createRoom n creator d'))
    = Some (Room.mk n creator [creator] [])
  ∧ filter (room_message n) (messages (snd (Part000.createRoom n creator d')))
    = [].
Proof.
  intros Hu d'.
  pose proof (room_named_deleted n d Hu) as Hnone. fold d' in Hnone.
  assert (messages d' = filter (λ m, ¬ room_message n m) (messages d))
    as Hmsgs by (unfold d'; by rewrite deleteRoom_unfold).
  rewrite Part000_requestJoinRoom_unfold, Part000_approveJoin_unfold, Hnone.
  rewrite !updateOne_None, set_rooms_id by done.
  split; [done|]. split; [done|].
  unfold Part000.createRoom. rewrite createRoom_unfold, Hnone.
  cbn [fst snd]. split; [done|]. split.
  - unfold room_named, set_rooms; cbn [rooms].
    rewrite findOne_app_None by done. simpl. by rewrite decide_True.
  - unfold set_rooms; cbn [messages]. rewrite Hmsgs.
    apply filter_Forall_nil, Forall_forall.
    intros m Hm. by apply list_elem_of_filter in Hm as [? _].
Qed.

Lemma deleteRoom_then_requests_witness :
  let d' := snd (Part000.deleteRoom "general" Sample.d0) in
  Part000.requestJoinRoom "general" "bob@example.com" d'
  = (res_status 404 (Msg "Room not found"), d')
  ∧ room_named "general"
      (snd (Part000.createRoom "general" "bob@example.com" d'))
    = Some (Room.mk "general" "bob@example.com" ["bob@example.com"] []).
Proof.
  assert (Room.unique (rooms Sample.d0)) as Hu.
  { unfold Room.unique. apply (bool_decide_unpack _). vm_compute. exact I. }
  pose proof (deleteRoom_then_requests "general" "bob@example.com"
                "bob@example.com" Sample.d0 Hu) as (H1 & _ & _ & H4 & _).
  split; [exact H1|exact H4].
Defined.

(** ** The join workflow *)

(** X27.  The whole workflow composes as intended in both revisions: on
    a store without a room of that name, creating the room, a request by
    somebody other than the creator and its approval leave a room whose
    members are the creator and then the newcomer, with nobody pending. *)
Theorem join_workflow n creator e d :
  room_named n d = None →
  e ≠ creator →
  room_named n
    (ServerRun.run
       [ServerRun.CreateRoom n creator; ServerRun.RequestJoinRoom n e;
        ServerRun.ApproveJoin n e] d)
  = Some (Room.mk n creator [creator; e] [])
  ∧ room_named n
      (Part000Run.run
         [Part000Run.CreateRoom n creator; Part000Run.RequestJoinRoom n e;
          Part000Run.ApproveJoin n e] d)
    = Some (Room.mk n creator [creator; e] []).
Proof.
  intros Hnone Hne.
  assert (room_named n (snd (Server.createRoom n creator d))
          = Some (Room.mk n creator [creator] [])) as Hnew.
  { rewrite createRoom_unfold, Hnone. unfold room_named in *; simpl.
    rewrite findOne_app_None by done. simpl. by rewrite decide_True. }
  assert (e ∉ [creator]) as Hm.
  { intros Hin. by apply list_elem_of_singleton in Hin. }
  assert (approved e (requested e (Room.mk n creator [creator] []))
          = Room.mk n creator [creator; e] []) as Hs.
  { assert (requested e (Room.mk n creator [creator] [])
            = Room.mk n creator [creator] [e]) as ->.
    { unfold requested. cbn [Room.joinRequests Room.name Room.creator Room.members].
      destruct (decide (e ∈ [])) as [Hin|_]; [by apply elem_of_nil in Hin|done]. }
    unfold approved; simpl. rewrite decide_False by done. f_equal.
    by rewrite filter_cons_False by (intros Hx; by apply Hx). }
  assert (requested_guarded e (Room.mk n creator [creator] [])
          = requested e (Room.mk n creator [creator] [])) as Hg.
  { unfold requested_guarded. simpl. by rewrite decide_False. }
  split.
  - change (ServerRun.run _ d)
      with (snd (Server.approveJoin n e
                   (snd (Server.requestJoinRoom n e
                           (snd (Server.createRoom n creator d)))))).
    rewrite Server_request_then_approve_room, Hnew. simpl. by rewrite Hs.
  - change (Part000Run.run _ d)
      with (snd (Part000.approveJoin n e
                   (snd (Part000.requestJoinRoom n e
                           (snd (Server.createRoom n creator d)))))).
    rewrite Part000_request_then_approve_room, Hnew. simpl.
    by rewrite Hg, Hs.
Qed.

Lemma join_workflow_witness :
  room_named "lobby"
    (ServerRun.run
       [ServerRun.CreateRoom "lobby" "alice@example.com";
        ServerRun.RequestJoinRoom "lobby" "bob@example.com";
        ServerRun.ApproveJoin "lobby" "bob@example.com"] Sample.d0)
  = Some (Room.mk "lobby" "alice@example.com"
            ["alice@example.com"; "bob@example.com"] [])
  ∧ room_named "lobby"
      (Part000Run.run
         [Part000Run.CreateRoom "lobby" "alice@example.com";
          Part000Run.RequestJoinRoom "lobby" "bob@example.com";
          Part000Run.ApproveJoin "lobby" "bob@example.com"] Sample.d0)
    = Some (Room.mk "lobby" "alice@example.com"
              ["alice@example.com"; "bob@example.com"] []).
Proof.
  apply (join_workflow "lobby" "alice@example.com" "bob@example.com"
           Sample.d0).
  - reflexivity.
  - discriminate.
Defined.

